(** * gtkmvc3: the observer core ([gtkmvc3/observer.py])

    A shallow embedding of the notification info object [NTInfo] and of the
    registration maps of [Observer], with the properties of the
    specification that concern them.

    Python dictionaries are finite maps ([gmap]), Python sets are finite
    sets ([gset]); an exception is an explicit result, and code that
    mutates the observer before it raises keeps the state it reached. *)

From Stdlib Require Import ZArith Ascii String.
From stdpp Require Import gmap strings list fin_maps fin_sets.

Open Scope string_scope.

(** ** Exceptions *)

Inductive exn : Type :=
  | KeyError
  | ValueError
  | AttributeError
  | AssertionError
  | TypeError.

Inductive res (A : Type) : Type :=
  | Ok (a : A)
  | Raise (e : exn).
Arguments Ok {A} a.
Arguments Raise {A} e.

(** ** Values stored in a notification info object *)

Inductive pyval : Type :=
  | VNone
  | VBool (b : bool)
  | VInt (z : Z)
  | VStr (s : string)
  | VObj (id : positive)          (* any other object, by identity *)
  | VMethod (name : string).      (* an attribute found on the class *)

(** Python truth value testing. *)
Definition truthy (v : pyval) : bool :=
  match v with
  | VNone => false
  | VBool b => b
  | VInt z => negb (z =? 0)%Z
  | VStr s => negb (String.eqb s "")
  | VObj _ => true
  | VMethod _ => true
  end.

(** ** class NTInfo (dict) *)

Module NTInfo.

(** The entries of the dictionary.  Keys are strings. *)
Abbreviation entries := (gmap string pyval).

Definition ONE_REQUESTED : list string :=
  ["assign"; "before"; "after"; "signal"].
Definition ALL_REQUESTED : list string :=
  ["model"; "prop_name"].

(** [dict.__init__(self, *args, **kwargs)]: the entries of the positional
    mapping, updated with the keyword arguments. *)
Definition dict_init (arg kwargs : entries) : entries := kwargs ∪ arg.

(** [_type in self and self[_type]] *)
Definition flag_set (_type : string) (self : entries) : bool :=
  match self !! _type with
  | Some v => truthy v
  | None => false
  end.

(** [NTInfo.__ALL_REQUESTED <= set(self)] *)
Definition all_requested (self : entries) : bool :=
  forallb (λ k, bool_decide (is_Some (self !! k))) ALL_REQUESTED.

(** One round of the loop that removes the flags unrelated to [_type]. *)
Definition drop_flag (_type : string) (self : entries) (flag : string)
  : entries :=
  if bool_decide (flag ≠ _type) && bool_decide (is_Some (self !! flag))
  then delete flag self
  else self.

(** [NTInfo.__init__] *)
Definition init (_type : string) (arg kwargs : entries) : res entries :=
  let self := dict_init arg kwargs in
  if negb (flag_set _type self) then Raise KeyError
  else if negb (all_requested self) then Raise AssertionError
  else Ok (foldl (drop_flag _type) self ONE_REQUESTED).

(** The call [NTInfo(_type, arg, **kwargs)].  Python binds the arguments
    to the parameters of [__init__(self, _type, *args, **kwargs)] before
    it runs the body: [self] and [_type] have their values from the
    positions, so a keyword argument named [self] or [_type] is a second
    value for the parameter, and the call raises [TypeError].  (One
    positional mapping is passed on to [dict.__init__]; [∅] stands for
    none.) *)
Definition call (_type : string) (arg kwargs : entries) : res entries :=
  if bool_decide (is_Some (kwargs !! "self"))
     || bool_decide (is_Some (kwargs !! "_type"))
  then Raise TypeError
  else init _type arg kwargs.

(** [NTInfo.__getattr__] *)
Definition getattr (self : entries) (name : string) : res pyval :=
  match self !! name with
  | Some v => Ok v
  | None => Raise AttributeError
  end.

(** Attribute access [n.name].  Python calls [__getattr__] only when the
    regular lookup fails; [NTInfo] derives from [dict] and overrides
    nothing else, so the regular lookup finds the attributes of the
    classes [NTInfo], [dict] and [object].  [class_attr] is that table.
    The instance dictionary is empty: nothing in the class writes to
    it. *)
Section Attribute.
Variable class_attr : string → option pyval.

Definition attribute (self : entries) (name : string) : res pyval :=
  match class_attr name with
  | Some a => Ok a
  | None => getattr self name
  end.
End Attribute.

(** The public methods of [dict] every Python 3 has. *)
Definition dict_methods : list string :=
  ["clear"; "copy"; "fromkeys"; "get"; "items"; "keys"; "pop";
   "popitem"; "setdefault"; "update"; "values"].

Definition dict_class_attr (name : string) : option pyval :=
  if bool_decide (name ∈ dict_methods) then Some (VMethod name) else None.

(** The interface of an [NTInfo]: its own attribute access and the
    operations it inherits from [dict]. *)
Inductive op : Type :=
  | GetAttr (name : string)          (* n.name *)
  | GetItem (k : string)             (* n[k] *)
  | Contains (k : string)            (* k in n *)
  | Len                              (* len(n) *)
  | Get (k : string) (d : pyval)     (* n.get(k, d) *)
  | SetItem (k : string) (v : pyval) (* n[k] = v *)
  | DelItem (k : string)             (* del n[k] *)
  | Pop (k : string)                 (* n.pop(k) *)
  | SetDefault (k : string) (d : pyval) (* n.setdefault(k, d) *)
  | Update (other : entries)         (* n.update(other) *)
  | Clear.                           (* n.clear() *)

Definition mutator (o : op) : bool :=
  match o with
  | SetItem _ _ | DelItem _ | Pop _ | SetDefault _ _ | Update _ | Clear =>
      true
  | _ => false
  end.

Section Interface.
Variable class_attr : string → option pyval.

Definition exec (o : op) (self : entries) : res pyval * entries :=
  match o with
  | GetAttr name => (attribute class_attr self name, self)
  | GetItem k =>
      (match self !! k with Some v => Ok v | None => Raise KeyError end,
       self)
  | Contains k => (Ok (VBool (bool_decide (is_Some (self !! k)))), self)
  | Len => (Ok (VInt (Z.of_nat (size self))), self)
  | Get k d => (Ok (default d (self !! k)), self)
  | SetItem k v => (Ok VNone, <[k := v]> self)
  | DelItem k =>
      match self !! k with
      | Some _ => (Ok VNone, delete k self)
      | None => (Raise KeyError, self)
      end
  | Pop k =>
      match self !! k with
      | Some v => (Ok v, delete k self)
      | None => (Raise KeyError, self)
      end
  | SetDefault k d =>
      match self !! k with
      | Some v => (Ok v, self)
      | None => (Ok d, <[k := d]> self)
      end
  | Update other => (Ok VNone, other ∪ self)
  | Clear => (Ok VNone, ∅)
  end.
End Interface.

End NTInfo.

(** ** Pattern matching of property names *)

(** [WILDCARDS = frozenset("[]!*?")] *)
Definition WILDCARDS : list ascii := ["["; "]"; "!"; "*"; "?"]%char.

(** [frozenset(prop_name) & WILDCARDS] is not empty. *)
Definition has_wildcards (prop_name : string) : bool :=
  existsb (λ c, bool_decide (c ∈ WILDCARDS)) (list_ascii_of_string prop_name).

(** [fnmatch.fnmatch] belongs to Python's library, and the observer uses
    it as a black box: the development takes it as a variable.  [Glob] is
    the matcher of a POSIX system (no case normalisation), used where a
    concrete one is needed: the pattern is translated to a list of tokens
    as [fnmatch.translate] does, and the tokens are matched against the
    whole name. *)
Module Glob.

Inductive tok : Type :=
  | TStar                                       (* * *)
  | TAny                                        (* ? *)
  | TLit (c : ascii)
  | TClass (neg : bool) (items : list (ascii * ascii)).  (* [seq], [!seq] *)

Fixpoint split_at_rbracket (l : list ascii)
  : option (list ascii * list ascii) :=
  match l with
  | [] => None
  | c :: r =>
      if bool_decide (c = "]"%char) then Some ([], r)
      else match split_at_rbracket r with
           | Some (stuff, after) => Some (c :: stuff, after)
           | None => None
           end
  end.

(** After an opening bracket: an optional [!], an optional closing
    bracket that stands for itself, then everything up to the next
    closing bracket. *)
Definition bracket (r : list ascii)
  : option (bool * list ascii * list ascii) :=
  let '(neg, r1) :=
    match r with
    | c :: r' => if bool_decide (c = "!"%char) then (true, r') else (false, r)
    | [] => (false, r)
    end in
  let '(first, r2) :=
    match r1 with
    | c :: r' => if bool_decide (c = "]"%char) then ([c], r') else ([], r1)
    | [] => ([], r1)
    end in
  match split_at_rbracket r2 with
  | Some (stuff, after) => Some (neg, (first ++ stuff)%list, after)
  | None => None
  end.

Fixpoint ranges (stuff : list ascii) : list (ascii * ascii) :=
  match stuff with
  | [] => []
  | a :: r =>
      match r with
      | d :: b :: r' =>
          if bool_decide (d = "-"%char) then (a, b) :: ranges r'
          else (a, a) :: ranges r
      | _ => (a, a) :: ranges r
      end
  end.

Fixpoint translate (fuel : nat) (pat : list ascii) : list tok :=
  match fuel, pat with
  | O, _ | _, [] => []
  | S fuel, c :: r =>
      if bool_decide (c = "*"%char) then TStar :: translate fuel r
      else if bool_decide (c = "?"%char) then TAny :: translate fuel r
      else if bool_decide (c = "["%char) then
        match bracket r with
        | Some (neg, stuff, after) =>
            TClass neg (ranges stuff) :: translate fuel after
        | None => TLit c :: translate fuel r
        end
      else TLit c :: translate fuel r
  end.

Definition in_range (c : ascii) (r : ascii * ascii) : bool :=
  (N_of_ascii r.1 <=? N_of_ascii c)%N && (N_of_ascii c <=? N_of_ascii r.2)%N.

Definition tok_accepts (t : tok) (c : ascii) : bool :=
  match t with
  | TStar | TAny => true
  | TLit c' => bool_decide (c = c')
  | TClass neg items => xorb neg (existsb (in_range c) items)
  end.

Fixpoint matches (ts : list tok) : list ascii → bool :=
  match ts with
  | [] => λ s, match s with [] => true | _ => false end
  | TStar :: ts' =>
      fix star (s : list ascii) : bool :=
        matches ts' s || match s with [] => false | _ :: s' => star s' end
  | t :: ts' =>
      λ s, match s with
           | [] => false
           | c :: s' => tok_accepts t c && matches ts' s'
           end
  end.

Definition fnmatch (name pat : string) : bool :=
  let p := list_ascii_of_string pat in
  matches (translate (length p) p) (list_ascii_of_string name).

End Glob.

(** ** class Observer: the registration maps *)

Module Observer.

Section Maps.
(** [M]: the callables that receive notifications, compared and hashed
    as Python compares them (a bound method by its instance and
    function).  [KW]: the keyword dictionaries kept with them. *)
Context {M : Type} {EqM : EqDecision M} {CountM : Countable M} {KW : Type}.
Variable fnmatch : string → string → bool.

Record observer : Type := mkObserver {
  PROP_TO_METHS : gmap string (gset M);   (* prop name --> methods *)
  METH_TO_PROPS : gmap M (gset string);   (* method --> observed props *)
  PAT_TO_METHS : gmap string (gset M);    (* pattern --> methods *)
  METH_TO_PAT : gmap M string;            (* method --> pattern *)
  PAT_METH_TO_KWARGS : gmap (string * M) KW  (* (name, method) --> info *)
}.

(** The maps as [__init__] creates them. *)
Definition new : observer := mkObserver ∅ ∅ ∅ ∅ ∅.

(** A computation on an observer: the result or the exception raised,
    and the observer as the computation left it. *)
Definition py (A : Type) : Type := observer → res A * observer.

Definition ret {A} (a : A) : py A := λ self, (Ok a, self).
Definition raise {A} (e : exn) : py A := λ self, (Raise e, self).
Definition bind {A B} (c : py A) (k : A → py B) : py B :=
  λ self,
    match c self with
    | (Ok a, self') => k a self'
    | (Raise e, self') => (Raise e, self')
    end.

#[global] Instance py_ret : MRet py := @ret.
#[global] Instance py_bind : MBind py := λ A B k c, bind c k.

(** [if k not in d: d[k] = set()] followed by [d[k].add(x)] *)
Definition add_to {K X : Type}
    {EqK : EqDecision K} {CountK : Countable K}
    {EqX : EqDecision X} {CountX : Countable X}
    (k : K) (x : X) (d : gmap K (gset X)) : gmap K (gset X) :=
  let d1 := match d !! k with
            | None => <[k := ∅]> d
            | Some _ => d
            end in
  alter (λ s, s ∪ {[x]}) k d1.

(** [self.__register_notification(prop_name, method, kwargs)] *)
Definition register_notification
    (prop_name : string) (method : M) (kwargs : KW) : py unit :=
  λ self,
    let key := (prop_name, method) in
    if bool_decide (is_Some (PAT_METH_TO_KWARGS self !! key))
    then (Raise ValueError, self)
    else if has_wildcards prop_name then
      if bool_decide (is_Some (METH_TO_PAT self !! method))
         || match METH_TO_PROPS self !! method with
            | Some props => negb (bool_decide (props = ∅))
            | None => false
            end
      then (Raise ValueError, self)
      else
        (Ok tt,
         {| PROP_TO_METHS := PROP_TO_METHS self;
            METH_TO_PROPS := METH_TO_PROPS self;
            PAT_TO_METHS := add_to prop_name method (PAT_TO_METHS self);
            METH_TO_PAT := <[method := prop_name]> (METH_TO_PAT self);
            PAT_METH_TO_KWARGS :=
              <[key := kwargs]> (PAT_METH_TO_KWARGS self) |})
    else
      if bool_decide (is_Some (METH_TO_PAT self !! method))
      then (Raise ValueError, self)
      else
        (Ok tt,
         {| PROP_TO_METHS := add_to prop_name method (PROP_TO_METHS self);
            METH_TO_PROPS := add_to method prop_name (METH_TO_PROPS self);
            PAT_TO_METHS := PAT_TO_METHS self;
            METH_TO_PAT := METH_TO_PAT self;
            PAT_METH_TO_KWARGS :=
              <[key := kwargs]> (PAT_METH_TO_KWARGS self) |}).

(** [Observer.observe] used on an instance: [self.observe(notified,
    name, **kwargs)], for a [notified] that is callable.  The checks on
    the number and the types of the arguments hold by typing, and so
    does [callable(notified)] where [M] holds callables only. *)
Definition observe (notified : M) (name : string) (kwargs : KW)
  : py unit :=
  register_notification name notified kwargs.

(** The same call where [M] holds objects that need not be callable,
    [is_callable] being Python's [callable]:
    [if not callable(notified): raise TypeError], then the
    registration. *)
Definition observe_checked (is_callable : M → bool)
    (notified : M) (name : string) (kwargs : KW) : py unit :=
  if is_callable notified
  then register_notification name notified kwargs
  else raise TypeError.

(** [get_observing_methods]: [functools.reduce(set.union, ..., set())]
    over the patterns that match, united with the exact entry. *)
Definition get_observing_methods (self : observer) (prop_name : string)
  : gset M :=
  foldl (∪) ∅
    (snd <$> filter (λ pm, fnmatch prop_name pm.1 = true)
               (map_to_list (PAT_TO_METHS self)))
  ∪ default ∅ (PROP_TO_METHS self !! prop_name).

(** [is_observing_method] *)
Definition is_observing_method (self : observer)
    (prop_name : string) (method : M) : bool :=
  if bool_decide (is_Some (PAT_METH_TO_KWARGS self !! (prop_name, method)))
  then true
  else match METH_TO_PAT self !! method with
       | Some pat => fnmatch prop_name pat
       | None => false
       end.

(** [get_observing_method_kwargs] *)
Definition get_observing_method_kwargs (self : observer)
    (prop_name : string) (method : M) : res KW :=
  match PAT_METH_TO_KWARGS self !! (prop_name, method) with
  | Some kw => Ok kw
  | None =>
      let prop_name := default prop_name (METH_TO_PAT self !! method) in
      match PAT_METH_TO_KWARGS self !! (prop_name, method) with
      | Some kw => Ok kw
      | None => Raise KeyError
      end
  end.

(** [d[k].remove(x)]: [KeyError] when [k] or [x] is missing. *)
Definition remove_from {K X : Type}
    {EqK : EqDecision K} {CountK : Countable K}
    {EqX : EqDecision X} {CountX : Countable X}
    (k : K) (x : X) (d : gmap K (gset X)) : res (gmap K (gset X)) :=
  match d !! k with
  | Some s =>
      if bool_decide (x ∈ s) then Ok (<[k := s ∖ {[x]}]> d)
      else Raise KeyError
  | None => Raise KeyError
  end.

(** [self.__PROP_TO_METHS[prop_name].remove(method)] *)
Definition prop_to_meths_remove (prop_name : string) (method : M)
  : py unit :=
  λ self,
    match remove_from prop_name method (PROP_TO_METHS self) with
    | Ok d =>
        (Ok tt,
         mkObserver d (METH_TO_PROPS self) (PAT_TO_METHS self)
           (METH_TO_PAT self) (PAT_METH_TO_KWARGS self))
    | Raise e => (Raise e, self)
    end.

(** [self.__PAT_TO_METHS[pat].remove(method)] *)
Definition pat_to_meths_remove (pat : string) (method : M) : py unit :=
  λ self,
    match remove_from pat method (PAT_TO_METHS self) with
    | Ok d =>
        (Ok tt,
         mkObserver (PROP_TO_METHS self) (METH_TO_PROPS self) d
           (METH_TO_PAT self) (PAT_METH_TO_KWARGS self))
    | Raise e => (Raise e, self)
    end.

(** [del self.__METH_TO_PAT[method]] *)
Definition meth_to_pat_del (method : M) : py unit :=
  λ self,
    match METH_TO_PAT self !! method with
    | Some _ =>
        (Ok tt,
         mkObserver (PROP_TO_METHS self) (METH_TO_PROPS self)
           (PAT_TO_METHS self) (delete method (METH_TO_PAT self))
           (PAT_METH_TO_KWARGS self))
    | None => (Raise KeyError, self)
    end.

(** [del self.__PAT_METH_TO_KWARGS[key]] *)
Definition kwargs_del (key : string * M) : py unit :=
  λ self,
    match PAT_METH_TO_KWARGS self !! key with
    | Some _ =>
        (Ok tt,
         mkObserver (PROP_TO_METHS self) (METH_TO_PROPS self)
           (PAT_TO_METHS self) (METH_TO_PAT self)
           (delete key (PAT_METH_TO_KWARGS self)))
    | None => (Raise KeyError, self)
    end.

(** The body of the loop of [remove_observing_method]. *)
Definition remove_one (method : M) (prop_name : string) : py unit :=
  λ self,
    match PROP_TO_METHS self !! prop_name with
    | Some _ =>
        (* exact match *)
        (prop_to_meths_remove prop_name method ;;
         kwargs_del (prop_name, method)) self
    | None =>
        match METH_TO_PAT self !! method with
        | Some pat =>
            (* found a pattern matching *)
            ((if fnmatch prop_name pat
              then (meth_to_pat_del method ;;
                    pat_to_meths_remove pat method)
              else ret tt) ;;
             kwargs_del (pat, method)) self
        | None => (Ok tt, self)
        end
    end.

(** [remove_observing_method(prop_names, method)] *)
Fixpoint remove_observing_method (prop_names : list string) (method : M)
  : py unit :=
  match prop_names with
  | [] => ret tt
  | prop_name :: rest =>
      remove_one method prop_name ;;
      remove_observing_method rest method
  end.

(** The observers a program can hold: a new one, changed by calls of
    [observe] and [remove_observing_method].  A call that raises
    leaves the observer as it was when the exception was raised. *)
Inductive reachable : observer → Prop :=
  | reach_new : reachable new
  | reach_observe self notified name kwargs :
      reachable self →
      reachable (observe notified name kwargs self).2
  | reach_remove self prop_names method :
      reachable self →
      reachable (remove_observing_method prop_names method self).2.

(** Observers with the record of the registrations that succeeded,
    the latest first. *)
Inductive after_registrations : observer → list (string * M) → Prop :=
  | after_new : after_registrations new []
  | after_ok self log name notified kwargs self' :
      after_registrations self log →
      observe notified name kwargs self = (Ok tt, self') →
      after_registrations self' ((name, notified) :: log)
  | after_raise self log name notified kwargs e :
      after_registrations self log →
      (observe notified name kwargs self).1 = Raise e →
      after_registrations (observe notified name kwargs self).2 log.




(** What the five maps of an observer have in common, whatever calls
    produced them: the pattern of a method and the methods of a pattern
    agree, the methods of an exact name have it among their properties
    and have keyword arguments for it, patterns and exact names are kept
    apart. *)
Record consistent (self : observer) : Prop := mkConsistent {
  pat_meth : ∀ pat method,
    method ∈ default ∅ (PAT_TO_METHS self !! pat) →
    METH_TO_PAT self !! method = Some pat;
  meth_pat : ∀ method pat,
    METH_TO_PAT self !! method = Some pat →
    has_wildcards pat = true ∧ method ∈ default ∅ (PAT_TO_METHS self !! pat);
  prop_meth : ∀ name method,
    method ∈ default ∅ (PROP_TO_METHS self !! name) →
    name ∈ default ∅ (METH_TO_PROPS self !! method)
    ∧ is_Some (PAT_METH_TO_KWARGS self !! (name, method));
  prop_exact : ∀ name,
    is_Some (PROP_TO_METHS self !! name) → has_wildcards name = false
}.

End Maps.

Arguments observer M {_ _} KW.
Arguments py M {_ _} KW A.

(** *** Instantiation: the notifications declared with the decorator *)

(** What [getattr(self, name)] gives: a function found on a class, bound
    to the instance, or any other object. *)
Inductive callable : Type :=
  | Bound (f : positive)
  | Plain (o : positive).

#[global] Instance callable_eq_dec : EqDecision callable.
Proof. solve_decision. Defined.

#[global] Instance callable_countable : Countable callable :=
  inj_countable'
    (λ c, match c with Bound f => inl f | Plain o => inr o end)
    (λ s, match s with inl f => Bound f | inr o => Plain o end)
    (λ c, match c with Bound f => eq_refl | Plain o => eq_refl end).

(** [callable(c)]: a function bound to the instance is callable; whether
    another object is, the object decides ([callable_obj]: a lambda kept
    in an attribute is, [None] is not). *)
Definition is_callable (callable_obj : positive → bool) (c : callable)
  : bool :=
  match c with
  | Bound _ => true
  | Plain o => callable_obj o
  end.

Section Instantiation.
Context {KW : Type}.

(** An entry of a class dictionary: a function, by identity, with the
    list the decorator left in its attribute [__custom_observes__] if it
    has one; or an object that is not a function. *)
Inductive attr : Type :=
  | Function (f : positive) (cust_obs : option (list (string * KW)))
  | Other (o : positive).

(** [cls.__dict__.items()], in its order. *)
Definition class : Type := list (string * attr).

Fixpoint dict_lookup (name : string) (cls : class) : option attr :=
  match cls with
  | [] => None
  | (k, a) :: rest =>
      if bool_decide (k = name) then Some a else dict_lookup name rest
  end.

Fixpoint mro_lookup (mro : list class) (name : string) : option attr :=
  match mro with
  | [] => None
  | cls :: rest =>
      match dict_lookup name cls with
      | Some a => Some a
      | None => mro_lookup rest name
      end
  end.

(** [getattr(self, name)]: the instance dictionary [inst] first, then the
    classes in method resolution order; a function is bound to [self]. *)
Definition getattr_self (inst : gmap string positive) (mro : list class)
    (name : string) : option callable :=
  match inst !! name with
  | Some o => Some (Plain o)
  | None =>
      match mro_lookup mro name with
      | Some (Function f _) => Some (Bound f)
      | Some (Other o) => Some (Plain o)
      | None => None
      end
  end.

(** The list [meths] of a class: the functions of its dictionary that
    carry [__custom_observes__]. *)
Definition meths (cls : class)
  : list (string * positive * list (string * KW)) :=
  omap (λ na, match na.2 with
              | Function f (Some pnames_ka) => Some (na.1, f, pnames_ka)
              | _ => None
              end) cls.

(** [for pname, ka in pnames_ka: ...]; returns [cls_processed_props]. *)
Fixpoint process_pnames (processed_props : gset string) (_method : callable)
    (pnames_ka : list (string * KW)) (cls_processed_props : gset string)
  : py callable KW (gset string) :=
  match pnames_ka with
  | [] => mret cls_processed_props
  | (pname, ka) :: rest =>
      if bool_decide (pname ∉ processed_props) then
        register_notification pname _method ka ;;
        process_pnames processed_props _method rest
          (cls_processed_props ∪ {[pname]})
      else
        process_pnames processed_props _method rest cls_processed_props
  end.

(** [for name, meth, pnames_ka in meths: ...] *)
Fixpoint process_meths (inst : gmap string positive) (mro : list class)
    (processed_props : gset string)
    (ms : list (string * positive * list (string * KW)))
    (cls_processed_props : gset string) : py callable KW (gset string) :=
  match ms with
  | [] => mret cls_processed_props
  | (name, _, pnames_ka) :: rest =>
      match getattr_self inst mro name with
      | Some _method =>
          cls_processed_props ←
            process_pnames processed_props _method pnames_ka
              cls_processed_props;
          process_meths inst mro processed_props rest cls_processed_props
      | None => raise AttributeError
      end
  end.

(** [for cls in inspect.getmro(type(self)): ...] *)
Fixpoint process_classes (inst : gmap string positive) (mro : list class)
    (classes : list class) (processed_props : gset string)
  : py callable KW unit :=
  match classes with
  | [] => mret tt
  | cls :: rest =>
      cls_processed_props ←
        process_meths inst mro processed_props (meths cls) ∅;
      process_classes inst mro rest (processed_props ∪ cls_processed_props)
  end.

(** [Observer.__init__(self)] for an instance whose class has the method
    resolution order [mro], without a model. *)
Definition init (inst : gmap string positive) (mro : list class)
  : res unit * observer callable KW :=
  process_classes inst mro mro ∅ new.



End Instantiation.

End Observer.

(** ** Concrete objects used in the examples *)

Module Sample.

(** The arguments of [NTInfo('assign', ...)] for a change of property
    [x] of model object 1. *)
Definition assign_args : gmap string pyval :=
  <["assign" := VBool true]>
    (<["model" := VObj 1]> (<["prop_name" := VStr "x"]> ∅)).

(** The same with a key named like a method of [dict]. *)
Definition keys_args : gmap string pyval := <["keys" := VInt 1]> assign_args.

(** Arguments whose kind is not one of the four flags. *)
Definition custom_args : gmap string pyval :=
  <["custom" := VBool true]>
    (<["before" := VBool true]>
       (<["model" := VObj 1]> (<["prop_name" := VStr "x"]> ∅))).

Definition custom_info : gmap string pyval :=
  <["custom" := VBool true]>
    (<["model" := VObj 1]> (<["prop_name" := VStr "x"]> ∅)).

(** A mapping with a key named [self]. *)
Definition self_args : gmap string pyval := <["self" := VInt 1]> assign_args.

(** Keyword arguments of a call of [observe]. *)
Definition kw : gmap string pyval := {[ "assign" := VBool true ]}.

(** An observer after [observe(on_a, "a*", assign=True)], and after
    [observe(on_b, "a*", assign=True)] as well.  Methods are named. *)
Definition one_handler : Observer.observer string (gmap string pyval) :=
  (Observer.observe "on_a" "a*" kw Observer.new).2.

Definition two_handlers : Observer.observer string (gmap string pyval) :=
  (Observer.observe "on_b" "a*" kw one_handler).2.

(** A class and its base class:
    [class Base(Observer)] declares [notify_x] for [x] and [w],
    [notify_any] for the pattern [p*] and [notify_old] for [x];
    [class Derived(Base)] overrides [notify_x], declared for [x] only,
    and has one more attribute. *)
Definition Derived : Observer.class (KW:=gmap string pyval) :=
  [("notify_x", Observer.Function 1 (Some [("x", kw)]));
   ("limit", Observer.Other 9)].

Definition Base : Observer.class (KW:=gmap string pyval) :=
  [("notify_x", Observer.Function 2 (Some [("x", kw); ("w", kw)]));
   ("notify_any", Observer.Function 3 (Some [("p*", kw)]));
   ("notify_old", Observer.Function 4 (Some [("x", kw)]))].

(** [class Top(Derived)] with [notify_x = None] in its body: object 8,
    not a function and not callable. *)
Definition Top : Observer.class (KW:=gmap string pyval) :=
  [("notify_x", Observer.Other 8)].


(** Which of these objects are callable. *)
Definition callable_obj (o : positive) : bool := bool_decide (o = 7%positive).


(** A class whose method is decorated with two patterns. *)
Definition TwoPatterns : Observer.class (KW:=gmap string pyval) :=
  [("on_any", Observer.Function 1 (Some [("a*", kw); ("b*", kw)]))].

End Sample.

(** ** Batches of registrations *)

Module Registry.

Section Registry.
Import Observer.
Context {M : Type} {EqM : EqDecision M} {CountM : Countable M} {KW : Type}.

(** A program that calls [self.observe(notified, name, **kwargs)] for
    each element of [calls] in turn; the first exception ends it. *)
Fixpoint observe_all (calls : list (string * M * KW)) : py M KW unit :=
  match calls with
  | [] => mret tt
  | (name, notified, kwargs) :: rest =>
      observe notified name kwargs ;; observe_all rest
  end.

(** The same program for objects that need not be callable. *)
Fixpoint observe_all_checked (is_callable : M → bool)
    (calls : list (string * M * KW)) : py M KW unit :=
  match calls with
  | [] => mret tt
  | (name, notified, kwargs) :: rest =>
      observe_checked is_callable notified name kwargs ;;
      observe_all_checked is_callable rest
  end.

(** A program that calls [self.__register_notification(name, method,
    kwargs)] for each element of [calls] in turn. *)
Fixpoint register_all (calls : list (string * M * KW)) : py M KW unit :=
  match calls with
  | [] => mret tt
  | (name, method, kwargs) :: rest =>
      register_notification name method kwargs ;; register_all rest
  end.

(** A list of pairs (name, method) that can all be registered: no pair
    twice, and a method that appears under two names has no wildcard in
    either. *)
Definition compatible (l : list (string * M)) : Prop :=
  NoDup l
  ∧ ∀ name1 name2 method,
      (name1, method) ∈ l → (name2, method) ∈ l → name1 ≠ name2 →
      has_wildcards name1 = false.

(** The maps after [__register_notification] has registered
    [prop_name], [method] and [kwargs] without raising. *)
Definition recorded (prop_name : string) (method : M) (kwargs : KW)
    (self : observer M KW) : observer M KW :=
  if has_wildcards prop_name then
    mkObserver (PROP_TO_METHS self) (METH_TO_PROPS self)
      (add_to prop_name method (PAT_TO_METHS self))
      (<[method := prop_name]> (METH_TO_PAT self))
      (<[(prop_name, method) := kwargs]> (PAT_METH_TO_KWARGS self))
  else
    mkObserver (add_to prop_name method (PROP_TO_METHS self))
      (add_to method prop_name (METH_TO_PROPS self))
      (PAT_TO_METHS self) (METH_TO_PAT self)
      (<[(prop_name, method) := kwargs]> (PAT_METH_TO_KWARGS self)).

(** More of what the maps of an observer have in common: keyword
    arguments are kept only for a pair that one of the maps associates,
    and a method under a pattern has no exact property. *)
Record settled (self : observer M KW) : Prop := mkSettled {
  kwargs_backed : ∀ name method,
    is_Some (PAT_METH_TO_KWARGS self !! (name, method)) →
    method ∈ default ∅ (PROP_TO_METHS self !! name)
    ∨ METH_TO_PAT self !! method = Some name;
  pattern_alone : ∀ method pat,
    METH_TO_PAT self !! method = Some pat →
    default ∅ (METH_TO_PROPS self !! method) = ∅
}.

End Registry.

Section Declared.
Import Observer.
Context {KW : Type}.

(** The registrations the loops of [Observer.__init__] make, in their
    order: for the pairs of one decorated function, *)
Fixpoint pnames_calls (processed_props : gset string) (_method : callable)
    (pnames_ka : list (string * KW)) : list (string * callable * KW) :=
  match pnames_ka with
  | [] => []
  | (pname, ka) :: rest =>
      if bool_decide (pname ∉ processed_props)
      then (pname, _method, ka) :: pnames_calls processed_props _method rest
      else pnames_calls processed_props _method rest
  end.

(** for the decorated functions of one class, *)
Fixpoint meths_calls (inst : gmap string positive)
    (mro : list (class (KW:=KW)))
    (processed_props : gset string)
    (ms : list (string * positive * list (string * KW)))
  : list (string * callable * KW) :=
  match ms with
  | [] => []
  | (name, _, pnames_ka) :: rest =>
      match getattr_self inst mro name with
      | Some _method =>
          (pnames_calls processed_props _method pnames_ka
           ++ meths_calls inst mro processed_props rest)%list
      | None => []
      end
  end.

(** (the names registered by a list of calls) *)
Definition names_of (calls : list (string * callable * KW)) : gset string :=
  list_to_set ((λ c, c.1.1) <$> calls).

(** and for the classes of a method resolution order, the names
    registered in a class being skipped in the classes after it. *)
Fixpoint classes_calls (inst : gmap string positive)
    (mro : list (class (KW:=KW)))
    (classes : list (class (KW:=KW))) (processed_props : gset string)
  : list (string * callable * KW) :=
  match classes with
  | [] => []
  | cls :: rest =>
      let calls := meths_calls inst mro processed_props (meths cls) in
      (calls
       ++ classes_calls inst mro rest (processed_props ∪ names_of calls))%list
  end.

End Declared.

End Registry.

(** ** The decorators *)

Module Decorator.


(** The table [args_to_type] of the deprecated [observes]. *)
Definition args_to_type (mnumargs : nat) : option string :=
  match mnumargs with
  | 4 => Some "signal"
  | 5 => Some "assign"
  | 7 => Some "before"
  | 8 => Some "after"
  | _ => None
  end.

(** [dict({type_kw : True, 'old_style_call' : True})] *)
Definition old_style_kwargs (type_kw : string) : gmap string pyval :=
  <[type_kw := VBool true]> (<["old_style_call" := VBool true]> ∅).

(** What [inspect.getargspec(_notified)] gives.  The function belongs to
    Python's library and its result is taken as given: the number of
    named positional parameters of the decorated function and whether it
    takes variable arguments, or the exception of the call ([ValueError]
    for a function with annotations or keyword-only parameters;
    [AttributeError] on a Python without [inspect.getargspec], which
    version 3.11 removed). *)
Definition argspec : Type := res (nat * bool).

(** [_decorator] of [observes] called with the names [args], on a function
    whose attribute [__custom_observes__] is [cust_obs]: the attribute
    after the decoration, or the exception.  A function the decorator
    cannot classify is returned as it is (with a warning). *)
Definition observes_decorator (args : list string) (spec : argspec)
    (cust_obs : option (list (string * gmap string pyval)))
  : res (option (list (string * gmap string pyval))) :=
  match spec with
  | Raise e => Raise e
  | Ok (mnumargs, mvarargs) =>
      if mvarargs then Ok cust_obs
      else match args_to_type mnumargs with
           | Some type_kw =>
               Ok (Some (default [] cust_obs
                         ++ ((λ arg, (arg, old_style_kwargs type_kw))
                               <$> args))%list)
           | None => Ok cust_obs
           end
  end.

(** [observes] called with the names [args] above a function: it checks
    its arguments ([TypeError] when there is none) and returns
    [_decorator], which is then applied to the function.  ([args] holds
    strings, so the check of their type passes; the wrappers of
    [gtkmvc3.support.decorators] are taken to pass the calls on, and
    the warnings logged are left out.) *)
Definition observes (args : list string) (spec : argspec)
    (cust_obs : option (list (string * gmap string pyval)))
  : res (option (list (string * gmap string pyval))) :=
  if bool_decide (args = []) then Raise TypeError
  else observes_decorator args spec cust_obs.

End Decorator.

(** ** More concrete observers *)

Module Scenario.

(** After [observe(on_x, "x", assign=True)]. *)
Definition exact_handler : Observer.observer string (gmap string pyval) :=
  (Observer.observe "on_x" "x" Sample.kw Observer.new).2.

(** [on_a] under the pattern [a*], and [on_x] under the exact name [a1],
    which the pattern matches. *)
Definition pattern_and_exact
  : Observer.observer string (gmap string pyval) :=
  (Observer.observe "on_x" "a1" Sample.kw Sample.one_handler).2.

End Scenario.

(** * Properties of NTInfo *)

Section NTInfoFacts.
Import NTInfo.

Lemma lookup_drop_flag (_type flag k : string) (self : entries) :
  drop_flag _type self flag !! k
  = if decide (k = flag ∧ flag ≠ _type) then None else self !! k.
Proof.
  unfold drop_flag.
  destruct (decide (k = flag ∧ flag ≠ _type)) as [[-> Hne]|Hn].
  - rewrite (bool_decide_eq_true_2 _ Hne). simpl.
    case_bool_decide as Hs.
    + apply lookup_delete_eq.
    + by apply eq_None_not_Some.
  - destruct (bool_decide (flag ≠ _type)) eqn:Hd; simpl; [|done].
    apply bool_decide_eq_true_1 in Hd.
    case_bool_decide; [|done].
    apply lookup_delete_ne. intros ->. by apply Hn.
Qed.

Lemma lookup_drop_flags (_type k : string) (flags : list string)
    (self : entries) :
  foldl (drop_flag _type) self flags !! k
  = if decide (k ∈ flags ∧ k ≠ _type) then None else self !! k.
Proof.
  revert self. induction flags as [|flag flags IH]; intros self; simpl.
  - done.
  - rewrite IH, lookup_drop_flag.
    destruct (decide (k = flag ∧ flag ≠ _type)) as [[-> Hne]|Hn1].
    + rewrite (decide_True (P := flag ∈ flag :: flags ∧ _))
        by (split; [left | done]).
      by case_decide.
    + destruct (decide (k ∈ flags ∧ k ≠ _type)) as [[Hin Hne]|Hn2].
      * rewrite decide_True by (split; [by right | done]). done.
      * rewrite decide_False; [done|].
        intros [[->|Hin]%elem_of_cons Hne]; tauto.
Qed.

(** What a successful construction leaves in the mapping. *)
Lemma init_Ok_lookup (_type : string) (arg kwargs n : entries) (k : string) :
  init _type arg kwargs = Ok n →
  n !! k = if decide (k ∈ ONE_REQUESTED ∧ k ≠ _type) then None
           else dict_init arg kwargs !! k.
Proof.
  unfold init. intros Hi.
  destruct (negb (flag_set _ _)); [done|].
  destruct (negb (all_requested _)); [done|].
  injection Hi as <-. apply (lookup_drop_flags _type k ONE_REQUESTED).
Qed.

Lemma init_Ok_inv (_type : string) (arg kwargs n : entries) :
  init _type arg kwargs = Ok n →
  flag_set _type (dict_init arg kwargs) = true
  ∧ all_requested (dict_init arg kwargs) = true.
Proof.
  unfold init. intros Hi.
  destruct (flag_set _ _); [|done].
  by destruct (all_requested _).
Qed.

(** [__getattr__] reads the entry of a key and raises for anything
    else. *)
Lemma getattr_key (n : entries) (k : string) (v : pyval) :
  n !! k = Some v → getattr n k = Ok v.
Proof. unfold getattr. by intros ->. Qed.

Lemma getattr_not_key (n : entries) (k : string) :
  n !! k = None → getattr n k = Raise AttributeError.
Proof. unfold getattr. by intros ->. Qed.

(** Attribute access, for the names the classes do not define. *)
Lemma attribute_unshadowed (class_attr : string → option pyval)
    (n : entries) (k : string) :
  class_attr k = None →
  (∀ v, n !! k = Some v → attribute class_attr n k = Ok v)
  ∧ (n !! k = None → attribute class_attr n k = Raise AttributeError).
Proof.
  intros Hc. unfold attribute. rewrite Hc.
  split; [apply getattr_key | apply getattr_not_key].
Qed.

(** Construction with exactly the four kinds: one flag is left. *)
Lemma init_one_flag (_type : string) (arg kwargs n : entries) :
  _type ∈ ONE_REQUESTED →
  init _type arg kwargs = Ok n →
  ∀ flag, flag ∈ ONE_REQUESTED → (is_Some (n !! flag) ↔ flag = _type).
Proof.
  intros Ht Hi flag Hf.
  rewrite (init_Ok_lookup _ _ _ _ flag Hi).
  destruct (init_Ok_inv _ _ _ _ Hi) as [Hfs _].
  unfold flag_set in Hfs.
  case_decide as Hn.
  - destruct Hn as [_ Hne]. split; [by intros [? ?] | done].
  - assert (flag = _type) as -> by (destruct (decide (flag = _type)); tauto).
    split; [done|]. intros _.
    destruct (dict_init arg kwargs !! _type); [eauto | done].
Qed.

(** C3.  [NTInfo(_type, ...)] raises [KeyError] when the mapping built
    from the arguments lacks the key named by [_type] or holds a false
    value under it; and an object that was constructed has the keys
    [model] and [prop_name]. *)
Theorem NTInfo_init_requires_flag (_type : string) (arg kwargs : entries) :
  (dict_init arg kwargs !! _type = None
   ∨ (∃ v, dict_init arg kwargs !! _type = Some v ∧ truthy v = false) →
   init _type arg kwargs = Raise KeyError)
  ∧ (∀ n, init _type arg kwargs = Ok n →
          is_Some (n !! "model") ∧ is_Some (n !! "prop_name")).
Proof.
  split.
  - intros Hk. unfold init, flag_set.
    destruct Hk as [-> | (v & -> & ->)]; done.
  - intros n Hi.
    destruct (init_Ok_inv _ _ _ _ Hi) as [_ Hall].
    unfold all_requested, ALL_REQUESTED in Hall. simpl in Hall.
    apply andb_prop in Hall as [Hm Hp].
    apply andb_prop in Hp as [Hp _].
    apply bool_decide_eq_true_1 in Hm, Hp.
    rewrite !(init_Ok_lookup _ _ _ _ _ Hi).
    split.
    + case_decide as Hd; [|done]. destruct Hd as [Hin _].
      apply (bool_decide_eq_true_2 _) in Hin. vm_compute in Hin. discriminate.
    + case_decide as Hd; [|done]. destruct Hd as [Hin _].
      apply (bool_decide_eq_true_2 _) in Hin. vm_compute in Hin. discriminate.
Qed.

Lemma NTInfo_init_requires_flag_witness :
  init "assign" ∅ {[ "assign" := VBool false ]} = Raise KeyError
  ∧ is_Some (Sample.assign_args !! "model")
  ∧ is_Some (Sample.assign_args !! "prop_name").
Proof.
  split.
  - apply (NTInfo_init_requires_flag "assign" ∅ {[ "assign" := VBool false ]}).
    right. exists (VBool false). split; reflexivity.
  - apply (NTInfo_init_requires_flag "assign" ∅ Sample.assign_args).
    vm_compute. reflexivity.
Defined.

(** C5.  Attribute access on an [NTInfo], evaluated where it departs
    from "every key is readable as an attribute":
    [NTInfo('assign', assign=True, model=m, prop_name='x', keys=1)] is
    constructed and has the key [keys] with value 1, [__getattr__] would
    return that value, but [n.keys] never reaches [__getattr__]: the
    regular lookup finds the method [keys] of [dict] and returns it. *)
Theorem NTInfo_attribute_shadowed_key :
  init "assign" ∅ Sample.keys_args = Ok Sample.keys_args
  ∧ Sample.keys_args !! "keys" = Some (VInt 1)
  ∧ getattr Sample.keys_args "keys" = Ok (VInt 1)
  ∧ attribute dict_class_attr Sample.keys_args "keys" = Ok (VMethod "keys")
  ∧ (exec dict_class_attr (GetAttr "keys") Sample.keys_args).1
    ≠ (exec dict_class_attr (GetItem "keys") Sample.keys_args).1.
Proof.
  split; [vm_compute; reflexivity|].
  split; [vm_compute; reflexivity|].
  split; [vm_compute; reflexivity|].
  split; [vm_compute; reflexivity|].
  vm_compute. discriminate.
Qed.

Lemma init_Ok_self (_type : string) (arg kwargs n : entries) :
  init _type arg kwargs = Ok n →
  flag_set _type n = true ∧ all_requested n = true
  ∧ foldl (drop_flag _type) n ONE_REQUESTED = n.
Proof.
  intros Hi. destruct (init_Ok_inv _ _ _ _ Hi) as [Hflag Hall].
  assert (∀ k, ¬ (k ∈ ONE_REQUESTED ∧ k ≠ _type) →
               n !! k = dict_init arg kwargs !! k) as Hkeep.
  { intros k Hk. rewrite (init_Ok_lookup _ _ _ _ k Hi). by case_decide. }
  split; [|split].
  - unfold flag_set in *. rewrite Hkeep; [done|]. tauto.
  - unfold all_requested, ALL_REQUESTED in *. simpl in *.
    rewrite !Hkeep; [done | |]; intros [Hin _];
      apply (bool_decide_eq_true_2 _) in Hin; vm_compute in Hin;
      discriminate.
  - apply map_eq. intros k. rewrite lookup_drop_flags.
    case_decide as Hk; [|done].
    rewrite (init_Ok_lookup _ _ _ _ k Hi). by rewrite decide_True.
Qed.

(** C6, as the specification states it, fails: an [NTInfo] is a [dict]
    and keeps the mutating operations of [dict].  On the object built by
    [NTInfo('assign', assign=True, model=m, prop_name='x')], item
    assignment adds an entry, [del] removes one and [clear] removes
    all. *)
Lemma NTInfo_not_read_only :
  init "assign" ∅ Sample.assign_args = Ok Sample.assign_args
  ∧ Sample.assign_args !! "extra" = None
  ∧ (exec dict_class_attr (SetItem "extra" (VInt 1)) Sample.assign_args).2
      !! "extra" = Some (VInt 1)
  ∧ Sample.assign_args !! "model" = Some (VObj 1)
  ∧ (exec dict_class_attr (DelItem "model") Sample.assign_args).2
      !! "model" = None
  ∧ (exec dict_class_attr Clear Sample.assign_args).2 ≠ Sample.assign_args.
Proof.
  split; [vm_compute; reflexivity|].
  split; [vm_compute; reflexivity|].
  split; [vm_compute; reflexivity|].
  split; [vm_compute; reflexivity|].
  split; [vm_compute; reflexivity|].
  simpl. intros Heq.
  assert (Sample.assign_args !! "model" = None) as Hm
    by (rewrite <- Heq; apply lookup_empty).
  vm_compute in Hm. discriminate.
Qed.

(** C6, amended.  An [NTInfo] is a [dict] with attribute-style read
    access, and it is not read-only.  On a constructed object reading
    changes nothing: the attribute access [NTInfo] defines returns the
    value of a key (for a name the classes do not define), and indexing,
    membership, [len] and [get] leave the entries as they are.  But the
    six mutating operations of [dict] are inherited as they are, and
    what the constructor established does not survive them: item
    assignment stores the value given; [del] and [pop] remove [model]
    and [prop_name], which the constructor requires; [setdefault] adds a
    second kind flag; [update] stores the entries it is given; [clear]
    removes all, the kind flag included. *)
Theorem NTInfo_reads_keep_mutators_change
    (class_attr : string → option pyval) (_type : string)
    (arg kwargs n : entries) :
  init _type arg kwargs = Ok n →
  (∀ k v, n !! k = Some v → class_attr k = None →
          exec class_attr (GetAttr k) n = (Ok v, n))
  ∧ (∀ o, mutator o = false → (exec class_attr o n).2 = n)
  ∧ (∀ k v,
        (exec class_attr (GetItem k)
           (exec class_attr (SetItem k v) n).2).1 = Ok v)
  ∧ ((exec class_attr (DelItem "model") n).1 = Ok VNone
     ∧ all_requested (exec class_attr (DelItem "model") n).2 = false)
  ∧ ((∃ v, n !! "prop_name" = Some v
           ∧ (exec class_attr (Pop "prop_name") n).1 = Ok v)
     ∧ all_requested (exec class_attr (Pop "prop_name") n).2 = false)
  ∧ (∀ flag d, flag ∈ ONE_REQUESTED → flag ≠ _type →
        n !! flag = None
        ∧ (exec class_attr (SetDefault flag d) n).1 = Ok d
        ∧ (exec class_attr (SetDefault flag d) n).2 !! flag = Some d)
  ∧ (∀ other k v, other !! k = Some v →
        (exec class_attr (Update other) n).2 !! k = Some v)
  ∧ ((exec class_attr Clear n).2 ≠ n
     ∧ flag_set _type (exec class_attr Clear n).2 = false).
Proof.
  intros Hi. destruct (init_Ok_self _ _ _ _ Hi) as (Hflag & Hall & _).
  assert (is_Some (n !! "model") ∧ is_Some (n !! "prop_name"))
    as [[m Hm] [p Hp]].
  { unfold all_requested, ALL_REQUESTED in Hall. simpl in Hall.
    apply andb_prop in Hall as [Hm Hp].
    apply andb_prop in Hp as [Hp _].
    apply bool_decide_eq_true_1 in Hm, Hp. done. }
  repeat apply conj.
  - intros k v Hk Hc. simpl. f_equal.
    by apply (attribute_unshadowed class_attr n k Hc).
  - intros o Ho. destruct o; simpl in *; done.
  - intros k v. simpl. by rewrite lookup_insert_eq.
  - simpl. by rewrite Hm.
  - simpl. rewrite Hm. simpl.
    unfold all_requested, ALL_REQUESTED. simpl.
    rewrite lookup_delete_eq.
    by rewrite bool_decide_eq_false_2 by (by intros [? ?]).
  - exists p. split; [done|]. simpl. by rewrite Hp.
  - simpl. rewrite Hp. simpl.
    unfold all_requested, ALL_REQUESTED. simpl.
    rewrite lookup_delete_eq.
    rewrite (bool_decide_eq_false_2 (is_Some None)) by (by intros [? ?]).
    apply andb_false_r.
  - intros flag d Hin Hne.
    assert (n !! flag = None) as Hnone.
    { rewrite (init_Ok_lookup _ _ _ _ flag Hi). by rewrite decide_True. }
    split; [done|]. simpl. rewrite Hnone. simpl.
    split; [done|]. apply lookup_insert_eq.
  - intros other k v Hk. simpl. by apply lookup_union_Some_l.
  - simpl. intros Heq. rewrite <- Heq, lookup_empty in Hm. done.
  - simpl. unfold flag_set. by rewrite lookup_empty.
Qed.

Lemma NTInfo_reads_keep_mutators_change_witness :
  exec dict_class_attr (GetAttr "model") Sample.assign_args
  = (Ok (VObj 1), Sample.assign_args)
  ∧ all_requested
      (exec dict_class_attr (DelItem "model") Sample.assign_args).2 = false
  ∧ (exec dict_class_attr (SetDefault "before" (VBool true))
       Sample.assign_args).2 !! "before" = Some (VBool true).
Proof.
  destruct (NTInfo_reads_keep_mutators_change dict_class_attr "assign" ∅
              Sample.assign_args Sample.assign_args)
    as (Hattr & _ & _ & [_ Hdel] & _ & Hsetdefault & _);
    [vm_compute; reflexivity|].
  split; [|split].
  - apply Hattr; reflexivity.
  - exact Hdel.
  - apply Hsetdefault; [|discriminate].
    apply elem_of_cons. right. apply elem_of_cons. by left.
Defined.

(** C8.  The construction evaluated with a kind outside the four flags:
    [NTInfo('custom', custom=True, before=True, model=m, prop_name='x')]
    is constructed, [before] is deleted, and the result holds none of
    [assign], [before], [after], [signal]. *)
Theorem NTInfo_init_custom_kind_no_flag :
  init "custom" ∅ Sample.custom_args = Ok Sample.custom_info
  ∧ (∀ flag, flag ∈ ONE_REQUESTED → Sample.custom_info !! flag = None).
Proof.
  split; [vm_compute; reflexivity|].
  intros flag Hin. unfold ONE_REQUESTED in Hin.
  repeat (apply elem_of_cons in Hin as [-> | Hin]; [vm_compute; reflexivity|]).
  by apply elem_of_nil in Hin.
Qed.

End NTInfoFacts.

(** * Properties of the registration maps *)

Section ObserverFacts.
Import Observer.
Context {M : Type} {EqM : EqDecision M} {CountM : Countable M} {KW : Type}.
Implicit Types (self : observer M KW) (method : M) (kwargs : KW).
Implicit Types (prop_name name pat : string).

(** *** The two dictionary idioms *)

Lemma lookup_add_to {K X : Type}
    {EqK : EqDecision K} {CountK : Countable K}
    {EqX : EqDecision X} {CountX : Countable X}
    (k k' : K) (x : X) (d : gmap K (gset X)) :
  add_to k x d !! k'
  = if decide (k = k') then Some (default ∅ (d !! k) ∪ {[x]}) else d !! k'.
Proof.
  unfold add_to. case_decide as Hk.
  - subst k'. rewrite lookup_alter_eq.
    destruct (d !! k) as [s|] eqn:Hd.
    + by rewrite Hd.
    + by rewrite lookup_insert_eq.
  - rewrite lookup_alter_ne by done.
    destruct (d !! k); [done|]. by rewrite lookup_insert_ne.
Qed.

Lemma elem_of_add_to {K X : Type}
    {EqK : EqDecision K} {CountK : Countable K}
    {EqX : EqDecision X} {CountX : Countable X}
    (k k' : K) (x x' : X) (d : gmap K (gset X)) :
  x' ∈ default ∅ (add_to k x d !! k')
  ↔ x' ∈ default ∅ (d !! k') ∨ (k' = k ∧ x' = x).
Proof.
  rewrite lookup_add_to. case_decide as Hk.
  - subst k'. simpl. rewrite elem_of_union, elem_of_singleton. intuition.
  - intuition congruence.
Qed.

Lemma remove_from_Ok {K X : Type}
    {EqK : EqDecision K} {CountK : Countable K}
    {EqX : EqDecision X} {CountX : Countable X}
    (k : K) (x : X) (d d' : gmap K (gset X)) :
  remove_from k x d = Ok d' →
  ∃ s, d !! k = Some s ∧ x ∈ s ∧ d' = <[k := s ∖ {[x]}]> d.
Proof.
  unfold remove_from. destruct (d !! k) as [s|]; [|done].
  case_bool_decide; [|done]. intros [= <-]. eauto.
Qed.

(** *** [get_observing_methods] *)

Lemma elem_of_foldl_union (x : M) (acc : gset M) (l : list (gset M)) :
  x ∈ foldl (∪) acc l ↔ x ∈ acc ∨ ∃ s, s ∈ l ∧ x ∈ s.
Proof.
  revert acc. induction l as [|s l IH]; intros acc; simpl.
  - split; [auto|]. intros [?|(s & Hs & _)]; [done|].
    by apply elem_of_nil in Hs.
  - rewrite IH, elem_of_union. split.
    + intros [[?|?]|(s' & Hs' & Hx)];
        [by left | right; exists s | right; exists s'].
      * split; [left | done].
      * split; [by right | done].
    + intros [?|(s' & [->|Hs']%elem_of_cons & Hx)];
        [by left; left | by left; right |].
      right. eauto.
Qed.

(** *** One registration *)

(** A registration that raises changes nothing. *)
Lemma register_notification_raise prop_name method kwargs self e :
  (register_notification prop_name method kwargs self).1 = Raise e →
  e = ValueError
  ∧ (register_notification prop_name method kwargs self).2 = self.
Proof.
  unfold register_notification.
  case_bool_decide; [by intros [= <-]|].
  destruct (has_wildcards prop_name).
  - destruct (_ || _); [by intros [= <-] | done].
  - case_bool_decide; [by intros [= <-] | done].
Qed.

Lemma register_notification_cases prop_name method kwargs self :
  register_notification prop_name method kwargs self = (Raise ValueError, self)
  ∨ ∃ self', register_notification prop_name method kwargs self = (Ok tt, self').
Proof.
  unfold register_notification.
  case_bool_decide; [by left|].
  destruct (has_wildcards prop_name).
  - destruct (_ || _); eauto.
  - case_bool_decide; eauto.
Qed.

(** What a registration that succeeds requires and does. *)
Lemma register_notification_Ok prop_name method kwargs self self' :
  register_notification prop_name method kwargs self = (Ok tt, self') →
  PAT_METH_TO_KWARGS self !! (prop_name, method) = None
  ∧ METH_TO_PAT self !! method = None
  ∧ PAT_METH_TO_KWARGS self'
    = <[(prop_name, method) := kwargs]> (PAT_METH_TO_KWARGS self)
  ∧ if has_wildcards prop_name
    then default ∅ (METH_TO_PROPS self !! method) = ∅
         ∧ PROP_TO_METHS self' = PROP_TO_METHS self
         ∧ METH_TO_PROPS self' = METH_TO_PROPS self
         ∧ PAT_TO_METHS self' = add_to prop_name method (PAT_TO_METHS self)
         ∧ METH_TO_PAT self' = <[method := prop_name]> (METH_TO_PAT self)
    else PROP_TO_METHS self' = add_to prop_name method (PROP_TO_METHS self)
         ∧ METH_TO_PROPS self' = add_to method prop_name (METH_TO_PROPS self)
         ∧ PAT_TO_METHS self' = PAT_TO_METHS self
         ∧ METH_TO_PAT self' = METH_TO_PAT self.
Proof.
  unfold register_notification.
  case_bool_decide as Hk; [done|].
  apply eq_None_not_Some in Hk.
  destruct (has_wildcards prop_name).
  - case_bool_decide as Hp; simpl; [done|].
    apply eq_None_not_Some in Hp.
    destruct (METH_TO_PROPS self !! method) as [props|] eqn:Hprops; simpl.
    + case_bool_decide as He; simpl; [|done]. intros [= <-]. simpl.
      by subst props.
    + intros [= <-]. done.
  - case_bool_decide as Hp; [done|].
    apply eq_None_not_Some in Hp. intros [= <-]. done.
Qed.


(** *** Computations *)

Lemma bind_preserves {A B} (P : observer M KW → Prop)
    (c : py M KW A) (k : A → py M KW B) self :
  P (c self).2 →
  (∀ a self', c self = (Ok a, self') → P (k a self').2) →
  P ((c ≫= k) self).2.
Proof.
  intros Hc Hk. unfold mbind, py_bind, bind.
  destruct (c self) as [[a|e] self'] eqn:Hcs; [by apply (Hk a) | done].
Qed.

Lemma elem_of_default_Some {K X : Type}
    {EqK : EqDecision K} {CountK : Countable K}
    {EqX : EqDecision X} {CountX : Countable X}
    (d : gmap K (gset X)) (k : K) (x : X) :
  x ∈ default ∅ (d !! k) → ∃ s, d !! k = Some s ∧ x ∈ s.
Proof.
  destruct (d !! k) as [s|]; simpl; [eauto|].
  intros Hx. by apply not_elem_of_empty in Hx.
Qed.

(** *** The maps stay consistent *)

Lemma consistent_new : consistent (new (M:=M) (KW:=KW)).
Proof.
  split; simpl.
  - intros pat method. rewrite lookup_empty. simpl.
    intros Hx. by apply not_elem_of_empty in Hx.
  - intros method pat. by rewrite lookup_empty.
  - intros name method. rewrite lookup_empty. simpl.
    intros Hx. by apply not_elem_of_empty in Hx.
  - intros name. rewrite lookup_empty. by intros [? ?].
Qed.

Lemma consistent_register prop_name method kwargs self :
  consistent self →
  consistent (register_notification prop_name method kwargs self).2.
Proof.
  intros [Hpm Hmp Hprop Hex].
  destruct (register_notification_cases prop_name method kwargs self)
    as [-> | [self' Hr]]; [by split|].
  rewrite Hr. simpl.
  apply register_notification_Ok in Hr as (Hkey & Hnopat & Hkw & Hr).
  destruct (has_wildcards prop_name) eqn:Hw.
  - destruct Hr as (Hnoprops & HP & HMP & HPAT & HM2P).
    split; rewrite ?HP, ?HMP, ?HPAT, ?HM2P, ?Hkw.
    + intros pat x [Hold | [-> ->]]%elem_of_add_to.
      * rewrite lookup_insert_ne; [by apply Hpm|].
        intros <-. apply Hpm in Hold. congruence.
      * apply lookup_insert_eq.
    + intros x pat. rewrite lookup_insert. case_decide as Hx.
      * intros [= <-]. split; [done|]. apply elem_of_add_to. by right.
      * intros Hold%Hmp. split; [tauto|]. apply elem_of_add_to. tauto.
    + intros name x Hin. destruct (Hprop _ _ Hin) as [Hn Hs].
      split; [done|]. rewrite lookup_insert. by case_decide.
    + done.
  - destruct Hr as (HP & HMP & HPAT & HM2P).
    split; rewrite ?HP, ?HMP, ?HPAT, ?HM2P, ?Hkw.
    + done.
    + done.
    + intros name x [Hold | [-> ->]]%elem_of_add_to.
      * destruct (Hprop _ _ Hold) as [Hn Hs]. split.
        -- apply elem_of_add_to. by left.
        -- rewrite lookup_insert. by case_decide.
      * split.
        -- apply elem_of_add_to. by right.
        -- rewrite lookup_insert_eq. eauto.
    + intros name. rewrite lookup_add_to. case_decide as Hn.
      * by subst name.
      * apply Hex.
Qed.

Lemma consistent_kwargs_del (key : string * M) self :
  consistent self →
  key.2 ∉ default ∅ (PROP_TO_METHS self !! key.1) →
  consistent (kwargs_del key self).2.
Proof.
  intros [Hpm Hmp Hprop Hex] Hnot. unfold kwargs_del.
  destruct (PAT_METH_TO_KWARGS self !! key); [|by split].
  split; simpl; try done.
  intros name x Hin. destruct (Hprop _ _ Hin) as [Hn Hs].
  split; [done|]. rewrite lookup_delete_ne; [done|].
  intros ->. by apply Hnot.
Qed.

Lemma consistent_prop_to_meths_remove prop_name method self :
  consistent self →
  consistent (prop_to_meths_remove prop_name method self).2
  ∧ ∀ self', prop_to_meths_remove prop_name method self = (Ok tt, self') →
             method ∉ default ∅ (PROP_TO_METHS self' !! prop_name).
Proof.
  intros [Hpm Hmp Hprop Hex]. unfold prop_to_meths_remove.
  destruct (remove_from _ _ _) as [d|e] eqn:Hrem; simpl;
    [|split; [by split | done]].
  apply remove_from_Ok in Hrem as (s & Hs & Hin & ->).
  split.
  - split; simpl; try done.
    + intros name x. rewrite lookup_insert. case_decide as Hn.
      * subst name. simpl. intros [Hx _]%elem_of_difference.
        apply Hprop. by rewrite Hs.
      * apply Hprop.
    + intros name. rewrite lookup_insert. case_decide as Hn.
      * subst name. intros _. apply Hex. by rewrite Hs.
      * apply Hex.
  - intros self' [= <-]. simpl. rewrite lookup_insert_eq. simpl.
    rewrite elem_of_difference, elem_of_singleton. tauto.
Qed.

(** Forgetting the pattern of a method: the two maps are updated
    together, and neither update raises. *)
Lemma consistent_forget_pattern method pat self :
  consistent self →
  METH_TO_PAT self !! method = Some pat →
  ∃ self', (meth_to_pat_del method ;; pat_to_meths_remove pat method) self
           = (Ok tt, self')
           ∧ consistent self'
           ∧ PROP_TO_METHS self' = PROP_TO_METHS self.
Proof.
  intros [Hpm Hmp Hprop Hex] Hpat.
  destruct (Hmp _ _ Hpat) as [Hw Hin].
  apply elem_of_default_Some in Hin as (s & Hs & Hin).
  unfold mbind, py_bind, bind, meth_to_pat_del, pat_to_meths_remove,
    remove_from.
  rewrite Hpat. simpl. rewrite Hs.
  rewrite (bool_decide_eq_true_2 _ Hin).
  eexists. split; [done|]. split; [|done].
  split; simpl.
  - intros pat' x. rewrite lookup_insert. case_decide as Hp.
    + subst pat'. simpl. intros [Hx Hne]%elem_of_difference.
      rewrite lookup_delete_ne by set_solver.
      apply Hpm. by rewrite Hs.
    + intros Hx. rewrite lookup_delete_ne; [by apply Hpm|].
      intros <-. apply Hpm in Hx. congruence.
  - intros x pat'. rewrite lookup_delete. case_decide as Hx; [done|].
    intros Hold. destruct (Hmp _ _ Hold) as [Hw' Hin'].
    split; [done|]. rewrite lookup_insert. case_decide as Hp; [|done].
    subst pat'. simpl. rewrite Hs in Hin'. simpl in Hin'.
    apply elem_of_difference. split; [done|].
    rewrite elem_of_singleton. congruence.
  - done.
  - done.
Qed.

(** The maps hold what the record of registrations holds: names without
    wildcards in [PROP_TO_METHS], the others in [PAT_TO_METHS], all of
    them in [PAT_METH_TO_KWARGS]. *)
Lemma after_registrations_maps self log :
  after_registrations self log →
  ∀ name method,
    (method ∈ default ∅ (PROP_TO_METHS self !! name)
     ↔ (name, method) ∈ log ∧ has_wildcards name = false)
    ∧ (method ∈ default ∅ (PAT_TO_METHS self !! name)
       ↔ (name, method) ∈ log ∧ has_wildcards name = true)
    ∧ (is_Some (PAT_METH_TO_KWARGS self !! (name, method))
       ↔ (name, method) ∈ log).
Proof.
  induction 1 as [|self log prop_name notified kwargs self' _ IH Hobs
                  |self log prop_name notified kwargs e _ IH Hobs];
    intros name method.
  - simpl. rewrite !lookup_empty. simpl.
    rewrite elem_of_nil, is_Some_alt.
    split; [|split]; split; try tauto; intros Hx;
      by apply not_elem_of_empty in Hx.
  - destruct (IH name method) as (IHprop & IHpat & IHkw).
    apply register_notification_Ok in Hobs as (_ & _ & -> & Hmaps).
    rewrite elem_of_cons, lookup_insert.
    assert ((name, method) = (prop_name, notified)
            ↔ name = prop_name ∧ method = notified) as Hpair
      by (split; [by intros [= -> ->] | by intros [-> ->]]).
    destruct (has_wildcards prop_name) eqn:Hw.
    + destruct Hmaps as (_ & -> & _ & -> & _).
      rewrite elem_of_add_to, IHprop, IHpat, Hpair.
      split; [|split].
      * split; [tauto|]. intros [[[-> ->]|?] Hw']; [congruence | tauto].
      * split; [intros [?|[-> ->]]; tauto | tauto].
      * case_decide as Hk.
        -- injection Hk as -> ->. split; [tauto | eauto].
        -- rewrite IHkw. split; [tauto|].
           intros [[-> ->]|?]; [done | tauto].
    + destruct Hmaps as (-> & _ & -> & _).
      rewrite elem_of_add_to, IHprop, IHpat, Hpair.
      split; [|split].
      * split; [intros [?|[-> ->]]; tauto | tauto].
      * split; [tauto|]. intros [[[-> ->]|?] Hw']; [congruence | tauto].
      * case_decide as Hk.
        -- injection Hk as -> ->. split; [tauto | eauto].
        -- rewrite IHkw. split; [tauto|].
           intros [[-> ->]|?]; [done | tauto].
  - unfold observe in *.
    apply register_notification_raise in Hobs as [_ ->]. apply IH.
Qed.

(** *** Conflicts *)



(** *** With a matcher *)

Section Matching.
Variable fnmatch : string → string → bool.

Lemma elem_of_get_observing_methods self prop_name method :
  method ∈ get_observing_methods fnmatch self prop_name
  ↔ method ∈ default ∅ (PROP_TO_METHS self !! prop_name)
    ∨ ∃ pat, fnmatch prop_name pat = true
             ∧ method ∈ default ∅ (PAT_TO_METHS self !! pat).
Proof.
  unfold get_observing_methods.
  rewrite elem_of_union, elem_of_foldl_union. split.
  - intros [[Hemp|(s & Hs & Hm)]|Hex]; [by apply not_elem_of_empty in Hemp | | by left].
    right. apply list_elem_of_fmap in Hs as ([pat meths] & -> & Hin).
    apply list_elem_of_filter in Hin as [Hf Hin].
    apply elem_of_map_to_list in Hin. exists pat. simpl in *.
    by rewrite Hin.
  - intros [Hex|(pat & Hf & Hm)]; [by right|].
    left. right.
    destruct (PAT_TO_METHS self !! pat) as [meths|] eqn:Hp;
      [|by apply not_elem_of_empty in Hm].
    exists meths. split; [|done].
    apply list_elem_of_fmap. exists (pat, meths). split; [done|].
    apply list_elem_of_filter. split; [done|]. by apply elem_of_map_to_list.
Qed.

Lemma consistent_remove_one method prop_name self :
  consistent self → consistent (remove_one fnmatch method prop_name self).2.
Proof.
  intros Hc. unfold remove_one.
  destruct (PROP_TO_METHS self !! prop_name) as [s|] eqn:Hs.
  - destruct (consistent_prop_to_meths_remove prop_name method self Hc)
      as [Hc1 Hgone].
    apply (bind_preserves consistent); [done|].
    intros [] self' Hrm. apply consistent_kwargs_del.
    + by rewrite Hrm in Hc1.
    + by apply Hgone.
  - destruct (METH_TO_PAT self !! method) as [pat|] eqn:Hpat; [|done].
    assert (∀ self', consistent self' →
                     PROP_TO_METHS self' = PROP_TO_METHS self →
                     consistent (kwargs_del (pat, method) self').2) as Hdel.
    { intros self' Hc' HP. apply consistent_kwargs_del; [done|].
      simpl. rewrite HP. intros Hin.
      apply elem_of_default_Some in Hin as (s' & Hs' & _).
      destruct Hc as [_ Hmp _ Hex].
      destruct (Hmp _ _ Hpat) as [Hw _].
      rewrite Hex in Hw by (rewrite Hs'; eauto). done. }
    destruct (fnmatch prop_name pat).
    + destruct (consistent_forget_pattern method pat self Hc Hpat)
        as (self1 & Hrun & Hc1 & HP1).
      apply (bind_preserves consistent).
      * by rewrite Hrun.
      * intros [] self' Hrun'. rewrite Hrun in Hrun'.
        injection Hrun' as <-. by apply Hdel.
    + apply (bind_preserves consistent); [done|].
      intros [] self' [= <-]. by apply Hdel.
Qed.

Lemma consistent_remove_observing_method prop_names method self :
  consistent self →
  consistent (remove_observing_method fnmatch prop_names method self).2.
Proof.
  revert self. induction prop_names as [|prop_name rest IH]; intros self Hc.
  - done.
  - simpl. apply (bind_preserves consistent).
    + by apply consistent_remove_one.
    + intros [] self' Hrun. apply IH.
      pose proof (consistent_remove_one method prop_name self Hc) as Hc1.
      by rewrite Hrun in Hc1.
Qed.

Lemma reachable_consistent self : reachable fnmatch self → consistent self.
Proof.
  induction 1 as [|self notified name kwargs _ IH|self prop_names method _ IH].
  - apply consistent_new.
  - by apply consistent_register.
  - by apply consistent_remove_observing_method.
Qed.

(** *** Observers built by registrations only *)

Lemma after_registrations_reachable self log :
  after_registrations self log → reachable fnmatch self.
Proof.
  induction 1 as [|self log name notified kwargs self' _ IH Hobs
                  |self log name notified kwargs e _ IH Hobs].
  - apply reach_new.
  - replace self' with (observe notified name kwargs self).2
      by (by rewrite Hobs).
    by apply reach_observe.
  - by apply reach_observe.
Qed.

(** C1.  [get_observing_methods(p)] returns exactly the methods in the
    entry of the exact name [p] united with the methods in the entries
    of the patterns that [fnmatch] accepts for [p]; after any sequence of
    registrations these are the methods registered under the name [p]
    itself (a name without wildcards) or under a name with wildcards that
    matches [p]; and when nothing matches the result is the empty set. *)
Theorem get_observing_methods_union :
  (∀ self prop_name method,
      method ∈ get_observing_methods fnmatch self prop_name
      ↔ method ∈ default ∅ (PROP_TO_METHS self !! prop_name)
        ∨ ∃ pat, fnmatch prop_name pat = true
                 ∧ method ∈ default ∅ (PAT_TO_METHS self !! pat))
  ∧ (∀ self log prop_name method,
        after_registrations self log →
        (method ∈ get_observing_methods fnmatch self prop_name
         ↔ ∃ name, (name, method) ∈ log
                   ∧ if has_wildcards name
                     then fnmatch prop_name name = true
                     else name = prop_name))
  ∧ (∀ self log prop_name,
        after_registrations self log →
        (∀ name method, (name, method) ∈ log →
                        if has_wildcards name
                        then fnmatch prop_name name = false
                        else name ≠ prop_name) →
        get_observing_methods fnmatch self prop_name = ∅)
  ∧ (∀ self prop_name,
        default ∅ (PROP_TO_METHS self !! prop_name) = ∅ →
        (∀ pat, fnmatch prop_name pat = true →
                default ∅ (PAT_TO_METHS self !! pat) = ∅) →
        get_observing_methods fnmatch self prop_name = ∅).
Proof.
  split; [apply elem_of_get_observing_methods|].
  assert (∀ self log prop_name method,
             after_registrations self log →
             (method ∈ get_observing_methods fnmatch self prop_name
              ↔ ∃ name, (name, method) ∈ log
                        ∧ if has_wildcards name
                          then fnmatch prop_name name = true
                          else name = prop_name)) as Hlog.
  { intros self log prop_name method Hreg.
    rewrite elem_of_get_observing_methods. split.
    + intros [Hexact | (pat & Hf & Hpat)].
      * apply (after_registrations_maps _ _ Hreg) in Hexact as [Hin Hw].
        exists prop_name. by rewrite Hw.
      * apply (after_registrations_maps _ _ Hreg) in Hpat as [Hin Hw].
        exists pat. by rewrite Hw.
    + intros (name & Hin & Hmatch).
      destruct (has_wildcards name) eqn:Hw.
      * right. exists name. split; [done|].
        by apply (after_registrations_maps _ _ Hreg).
      * subst name. left. by apply (after_registrations_maps _ _ Hreg). }
  split; [exact Hlog|]. split.
  - intros self log prop_name Hreg Hnone.
    apply set_eq. intros method. split;
      [|intros Hx; by apply not_elem_of_empty in Hx].
    rewrite (Hlog self log prop_name method Hreg).
    intros (name & Hin & Hmatch). apply Hnone in Hin.
    destruct (has_wildcards name); congruence.
  - intros self prop_name Hnone Hpats.
    apply set_eq. intros method.
    rewrite elem_of_get_observing_methods, Hnone. split.
    + intros [Hx | (pat & Hf & Hin)]; [done|].
      by rewrite (Hpats pat Hf) in Hin.
    + intros Hx. by apply not_elem_of_empty in Hx.
Qed.


(** C7, amended.  In every observer a program can hold, a method is
    under at most one pattern, the one [METH_TO_PAT] gives; a pattern may
    hold any number of methods, and a property name the pattern matches
    is dispatched to every one of them. *)
Theorem pattern_routes_to_all_its_methods self :
  reachable fnmatch self →
  (∀ method pat1 pat2,
      method ∈ default ∅ (PAT_TO_METHS self !! pat1) →
      method ∈ default ∅ (PAT_TO_METHS self !! pat2) →
      pat1 = pat2 ∧ METH_TO_PAT self !! method = Some pat1)
  ∧ (∀ pat prop_name method,
        fnmatch prop_name pat = true →
        method ∈ default ∅ (PAT_TO_METHS self !! pat) →
        method ∈ get_observing_methods fnmatch self prop_name).
Proof.
  intros [Hpm _ _ _]%reachable_consistent. split.
  - intros method pat1 pat2 H1%Hpm H2%Hpm. split; [congruence | done].
  - intros pat prop_name method Hf Hin.
    apply elem_of_get_observing_methods. right. eauto.
Qed.

End Matching.

End ObserverFacts.

(** * Properties of the instantiation *)

Section InstantiationFacts.
Import Observer.
Context {KW : Type}.

Implicit Types (self : observer callable KW) (inst : gmap string positive).
Implicit Types (mro classes : list (class (KW:=KW))) (cls : class (KW:=KW)).
Implicit Types (processed_props cls_processed_props : gset string).








(** *** Conflicts at instantiation *)

Section Matching.
Variable fnmatch : string → string → bool.

Lemma reachable_process_pnames processed_props (_method : callable)
    (pnames_ka : list (string * KW)) cls_processed_props self :
  reachable fnmatch self →
  reachable fnmatch
    (process_pnames processed_props _method pnames_ka cls_processed_props
       self).2.
Proof.
  revert cls_processed_props self.
  induction pnames_ka as [|[pname ka] rest IH];
    intros cls_processed_props self Hreach; simpl; [done|].
  case_bool_decide; [|by apply IH].
  apply (bind_preserves (reachable fnmatch)).
  - by apply (reach_observe fnmatch self _method pname ka).
  - intros [] self' Hreg. apply IH.
    replace self' with (observe _method pname ka self).2
      by (unfold observe; by rewrite Hreg).
    by apply reach_observe.
Qed.

Lemma reachable_process_meths inst mro processed_props
    (ms : list (string * positive * list (string * KW)))
    cls_processed_props self :
  reachable fnmatch self →
  reachable fnmatch
    (process_meths inst mro processed_props ms cls_processed_props self).2.
Proof.
  revert cls_processed_props self.
  induction ms as [|[[name f] pk] rest IH];
    intros cls_processed_props self Hreach; simpl; [done|].
  destruct (getattr_self inst mro name) as [m|]; [|done].
  apply (bind_preserves (reachable fnmatch)).
  - by apply reachable_process_pnames.
  - intros cp self' Hrun. apply IH.
    pose proof (reachable_process_pnames processed_props m pk
                  cls_processed_props self Hreach) as Hr.
    by rewrite Hrun in Hr.
Qed.

Lemma reachable_process_classes inst mro classes processed_props self :
  reachable fnmatch self →
  reachable fnmatch
    (process_classes inst mro classes processed_props self).2.
Proof.
  revert processed_props self.
  induction classes as [|cls rest IH]; intros processed_props self Hreach;
    simpl; [done|].
  apply (bind_preserves (reachable fnmatch)).
  - by apply reachable_process_meths.
  - intros cp self' Hrun. apply IH.
    pose proof (reachable_process_meths inst mro processed_props (meths cls)
                  ∅ self Hreach) as Hr.
    by rewrite Hrun in Hr.
Qed.

(** Every observer [__init__] goes through is one a program can hold. *)
Lemma reachable_init inst mro : reachable fnmatch (init inst mro).2.
Proof. apply reachable_process_classes, reach_new. Qed.


End Matching.

End InstantiationFacts.

(** * The theorems at concrete observers *)

Section Witnesses.
Import Observer.

Lemma one_handler_log :
  after_registrations Sample.one_handler [("a*", "on_a")].
Proof.
  apply (after_ok new [] "a*" "on_a" Sample.kw).
  - apply after_new.
  - vm_compute. reflexivity.
Defined.

Lemma two_handlers_log :
  after_registrations Sample.two_handlers [("a*", "on_b"); ("a*", "on_a")].
Proof.
  apply (after_ok Sample.one_handler _ "a*" "on_b" Sample.kw).
  - apply one_handler_log.
  - vm_compute. reflexivity.
Defined.

Lemma get_observing_methods_union_witness :
  "on_a" ∈ get_observing_methods Glob.fnmatch Sample.two_handlers "a1"
  ∧ get_observing_methods Glob.fnmatch Sample.two_handlers "b1" = ∅
  ∧ get_observing_methods Glob.fnmatch
      (new (M:=string) (KW:=gmap string pyval)) "a1" = ∅.
Proof.
  destruct (get_observing_methods_union
              (M:=string) (KW:=gmap string pyval) Glob.fnmatch)
    as (_ & Hlog & Hnone & Hempty).
  split; [|split].
  - apply (Hlog _ _ "a1" "on_a" two_handlers_log).
    exists "a*". split.
    + apply elem_of_cons. right. apply elem_of_cons. left. reflexivity.
    + vm_compute. reflexivity.
  - apply (Hnone _ _ "b1" two_handlers_log).
    intros name method Hin.
    apply elem_of_cons in Hin as [Hin|Hin];
      [injection Hin as -> ->; vm_compute; reflexivity|].
    apply elem_of_cons in Hin as [Hin|Hin];
      [injection Hin as -> ->; vm_compute; reflexivity|].
    by apply elem_of_nil in Hin.
  - apply Hempty.
    + reflexivity.
    + intros pat _. reflexivity.
Defined.


(** C7, as the specification states it, fails: after
    [observe(on_a, "a*")] and [observe(on_b, "a*")] the pattern [a*]
    holds two methods, and a change of property [a1] is dispatched to
    both. *)
Lemma pattern_with_two_methods :
  reachable Glob.fnmatch Sample.two_handlers
  ∧ PAT_TO_METHS Sample.two_handlers !! "a*" = Some {[ "on_a"; "on_b" ]}
  ∧ get_observing_methods Glob.fnmatch Sample.two_handlers "a1"
    = {[ "on_a"; "on_b" ]}
  ∧ "on_a" ≠ "on_b".
Proof.
  split; [apply (after_registrations_reachable _ _ _ two_handlers_log)|].
  split; [vm_compute; reflexivity|].
  split; [vm_compute; reflexivity|].
  discriminate.
Qed.

Lemma pattern_routes_to_all_its_methods_witness :
  "on_a" ∈ get_observing_methods Glob.fnmatch Sample.two_handlers "a1"
  ∧ "on_b" ∈ get_observing_methods Glob.fnmatch Sample.two_handlers "a1".
Proof.
  destruct (pattern_routes_to_all_its_methods Glob.fnmatch
              Sample.two_handlers
              (after_registrations_reachable _ _ _ two_handlers_log))
    as [_ Hall].
  split; apply (Hall "a*"); vm_compute; reflexivity.
Defined.


(** The same conflict, seen from outside: instantiating a class whose
    method is decorated with two patterns raises [ValueError]. *)
Example init_two_patterns_raises :
  (init ∅ [Sample.TwoPatterns]).1 = Raise ValueError.
Proof. vm_compute. reflexivity. Qed.

(** An instance of [Derived]: [x] goes to the override of [notify_x]
    only, not to [notify_old] of the base class; [w], declared on the
    base function, goes to the override as well. *)
Example init_derived_maps :
  (init ∅ [Sample.Derived; Sample.Base]).1 = Ok tt
  ∧ PROP_TO_METHS (init ∅ [Sample.Derived; Sample.Base]).2 !! "x"
    = Some {[ Bound 1 ]}
  ∧ PROP_TO_METHS (init ∅ [Sample.Derived; Sample.Base]).2 !! "w"
    = Some {[ Bound 1 ]}
  ∧ PAT_TO_METHS (init ∅ [Sample.Derived; Sample.Base]).2 !! "p*"
    = Some {[ Bound 3 ]}.
Proof. repeat split; vm_compute; reflexivity. Qed.



End Witnesses.

(** * More about NTInfo *)

Section NTInfoMore.
Import NTInfo.

(** X1.  Construction keeps what it is given, the other kind flags apart. *)
Theorem NTInfo_init_keeps_entries (_type : string) (arg kwargs n : entries) :
  init _type arg kwargs = Ok n →
  (∀ k, k ∉ ONE_REQUESTED ∨ k = _type →
        n !! k = dict_init arg kwargs !! k)
  ∧ (∀ k, k ∈ ONE_REQUESTED → k ≠ _type → n !! k = None)
  ∧ n ⊆ dict_init arg kwargs.
Proof.
  intros Hi. split; [|split].
  - intros k Hk. rewrite (init_Ok_lookup _ _ _ _ k Hi).
    case_decide; [tauto | done].
  - intros k Hin Hne. rewrite (init_Ok_lookup _ _ _ _ k Hi).
    by rewrite decide_True.
  - apply map_subseteq_spec. intros k v.
    rewrite (init_Ok_lookup _ _ _ _ k Hi). by case_decide.
Qed.

Lemma NTInfo_init_keeps_entries_witness :
  Sample.custom_info !! "model" = Some (VObj 1)
  ∧ Sample.custom_info !! "before" = None.
Proof.
  destruct (NTInfo_init_keeps_entries "custom" ∅ Sample.custom_args
              Sample.custom_info) as (Hkeep & Hdrop & _);
    [vm_compute; reflexivity|].
  split.
  - rewrite Hkeep; [vm_compute; reflexivity|].
    left. intros Hin. apply (bool_decide_eq_true_2 _) in Hin.
    vm_compute in Hin. discriminate.
  - apply Hdrop; [|discriminate].
    apply elem_of_cons. right. apply elem_of_cons. by left.
Defined.

(** X2.  With one of the four kinds, exactly that kind flag is left, with a
    true value. *)
Theorem NTInfo_init_one_kind (_type : string) (arg kwargs n : entries) :
  _type ∈ ONE_REQUESTED →
  init _type arg kwargs = Ok n →
  (∀ flag, flag ∈ ONE_REQUESTED → (is_Some (n !! flag) ↔ flag = _type))
  ∧ ∃ v, n !! _type = Some v ∧ truthy v = true.
Proof.
  intros Ht Hi. split; [by apply (init_one_flag _ arg kwargs)|].
  destruct (init_Ok_self _ _ _ _ Hi) as (Hflag & _).
  unfold flag_set in Hflag.
  destruct (n !! _type) as [v|]; [eauto | done].
Qed.

Lemma NTInfo_init_one_kind_witness :
  is_Some (Sample.assign_args !! "assign")
  ∧ ¬ is_Some (Sample.assign_args !! "before").
Proof.
  destruct (NTInfo_init_one_kind "assign" ∅ Sample.assign_args
              Sample.assign_args) as [Hone _].
  - apply elem_of_cons. by left.
  - vm_compute. reflexivity.
  - split.
    + apply Hone; [apply elem_of_cons; by left | reflexivity].
    + intros Hs. apply Hone in Hs; [discriminate|].
      apply elem_of_cons. right. apply elem_of_cons. by left.
Defined.

(** X3.  Constructing again from a constructed object gives the same
    object: always when the object is passed as the mapping; when it is
    passed as keyword arguments, unless it has a key [self] or [_type],
    which the call cannot bind: then it raises [TypeError]. *)
Theorem NTInfo_init_idempotent (_type : string) (arg kwargs n : entries) :
  call _type arg kwargs = Ok n →
  call _type n ∅ = Ok n
  ∧ call _type ∅ n
    = if bool_decide (is_Some (n !! "self"))
         || bool_decide (is_Some (n !! "_type"))
      then Raise TypeError
      else Ok n.
Proof.
  intros Hc.
  assert (init _type arg kwargs = Ok n) as Hi.
  { unfold call in Hc.
    by destruct (bool_decide (is_Some (kwargs !! "self"))
                 || bool_decide (is_Some (kwargs !! "_type"))). }
  destruct (init_Ok_self _ _ _ _ Hi) as (Hflag & Hall & Hfold).
  assert (dict_init n ∅ = n) as Hl
    by (unfold dict_init; apply (left_id_L ∅ (∪))).
  assert (dict_init ∅ n = n) as Hr
    by (unfold dict_init; apply (right_id_L ∅ (∪))).
  assert (init _type n ∅ = Ok n ∧ init _type ∅ n = Ok n) as [Hpos Hkw].
  { unfold init. rewrite Hl, Hr, Hflag, Hall. cbn [negb].
    by rewrite Hfold. }
  split.
  - unfold call. rewrite !lookup_empty.
    rewrite (bool_decide_eq_false_2 (is_Some None)) by (by intros [? ?]).
    exact Hpos.
  - unfold call. rewrite Hkw. done.
Qed.

Lemma NTInfo_init_idempotent_witness :
  call "custom" Sample.custom_info ∅ = Ok Sample.custom_info
  ∧ call "assign" Sample.self_args ∅ = Ok Sample.self_args
  ∧ call "assign" ∅ Sample.self_args = Raise TypeError.
Proof.
  split; [|split].
  - apply (NTInfo_init_idempotent "custom" ∅ Sample.custom_args).
    vm_compute. reflexivity.
  - apply (NTInfo_init_idempotent "assign" Sample.self_args ∅).
    vm_compute. reflexivity.
  - destruct (NTInfo_init_idempotent "assign" Sample.self_args ∅
                Sample.self_args) as [_ Hkw]; [vm_compute; reflexivity|].
    rewrite Hkw. vm_compute. reflexivity.
Defined.

(** X4.  On a constructed object the attributes [model], [prop_name] and the
    kind named at construction are readable and give what was supplied;
    another kind flag read as an attribute raises [AttributeError] even
    if it was supplied.  (For names the classes do not define.) *)
Theorem NTInfo_attributes_after_init (class_attr : string → option pyval)
    (_type : string) (arg kwargs n : entries) :
  init _type arg kwargs = Ok n →
  (∀ k, k = "model" ∨ k = "prop_name" ∨ k = _type →
        class_attr k = None →
        ∃ v, dict_init arg kwargs !! k = Some v
             ∧ attribute class_attr n k = Ok v)
  ∧ (∀ flag, flag ∈ ONE_REQUESTED → flag ≠ _type →
             class_attr flag = None →
             attribute class_attr n flag = Raise AttributeError).
Proof.
  intros Hi. destruct (init_Ok_self _ _ _ _ Hi) as (Hflag & Hall & _).
  split.
  - intros k Hk Hc.
    assert (is_Some (n !! k)) as [v Hv].
    { unfold flag_set, all_requested, ALL_REQUESTED in *. simpl in *.
      apply andb_prop in Hall as [Hm Hp].
      apply andb_prop in Hp as [Hp _].
      apply bool_decide_eq_true_1 in Hm, Hp.
      destruct Hk as [->|[->| ->]]; [done | done |].
      destruct (n !! _type); [eauto | done]. }
    exists v. split.
    + rewrite (init_Ok_lookup _ _ _ _ k Hi) in Hv. by case_decide.
    + by apply (attribute_unshadowed class_attr n k Hc).
  - intros flag Hin Hne Hc.
    apply (attribute_unshadowed class_attr n flag Hc).
    rewrite (init_Ok_lookup _ _ _ _ flag Hi). by rewrite decide_True.
Qed.

Lemma NTInfo_attributes_after_init_witness :
  attribute dict_class_attr Sample.custom_info "before"
  = Raise AttributeError.
Proof.
  apply (NTInfo_attributes_after_init dict_class_attr "custom" ∅
           Sample.custom_args Sample.custom_info).
  - vm_compute. reflexivity.
  - apply elem_of_cons. right. apply elem_of_cons. by left.
  - discriminate.
  - reflexivity.
Defined.

End NTInfoMore.

(** * More about the registration maps *)

Section ObserverMore.
Import Observer Registry.
Context {M : Type} {EqM : EqDecision M} {CountM : Countable M} {KW : Type}.
Implicit Types (self : observer M KW) (method : M) (kwargs : KW).
Implicit Types (prop_name name pat : string).

(** *** Keyword arguments are kept for registered pairs only *)

Lemma settled_new : settled (new (M:=M) (KW:=KW)).
Proof.
  split; simpl.
  - intros name method. rewrite lookup_empty. by intros [? ?].
  - intros method pat. by rewrite lookup_empty.
Qed.

Lemma settled_register prop_name method kwargs self :
  settled self →
  settled (register_notification prop_name method kwargs self).2.
Proof.
  intros [Hkb Hpa].
  destruct (register_notification_cases prop_name method kwargs self)
    as [-> | [self' Hr]]; [by split|].
  rewrite Hr. simpl.
  apply register_notification_Ok in Hr as (Hkey & Hnopat & Hkw & Hr).
  destruct (has_wildcards prop_name) eqn:Hw.
  - destruct Hr as (Hnoprops & HP & HMP & HPAT & HM2P).
    split; rewrite ?HP, ?HMP, ?HPAT, ?HM2P, ?Hkw.
    + intros name x. rewrite lookup_insert. case_decide as Hk.
      * injection Hk as <- <-. intros _. right. apply lookup_insert_eq.
      * intros [Hl|Hr]%Hkb; [by left | right].
        rewrite lookup_insert_ne; [done | congruence].
    + intros x pat. rewrite lookup_insert. case_decide as Hx.
      * by subst x.
      * apply Hpa.
  - destruct Hr as (HP & HMP & HPAT & HM2P).
    split; rewrite ?HP, ?HMP, ?HPAT, ?HM2P, ?Hkw.
    + intros name x. rewrite lookup_insert. case_decide as Hk.
      * injection Hk as <- <-. intros _. left.
        apply elem_of_add_to. by right.
      * intros [Hl|Hr]%Hkb; [left | by right].
        apply elem_of_add_to. by left.
    + intros x pat Hx. rewrite lookup_add_to. case_decide as Hm.
      * congruence.
      * by apply (Hpa x pat).
Qed.

(** A method under an exact name is under no pattern. *)
Lemma exact_no_pattern self name method :
  consistent self → settled self →
  method ∈ default ∅ (PROP_TO_METHS self !! name) →
  METH_TO_PAT self !! method = None.
Proof.
  intros [_ _ Hprop _] [_ Hpa] Hin.
  destruct (METH_TO_PAT self !! method) as [pat|] eqn:Hpat; [|done].
  destruct (Hprop _ _ Hin) as [Hn _].
  rewrite (Hpa _ _ Hpat) in Hn. by apply not_elem_of_empty in Hn.
Qed.

(** *** What one round of [remove_observing_method] does *)

Lemma remove_single (fnmatch : string → string → bool) prop_name method
    self :
  remove_observing_method fnmatch [prop_name] method self
  = remove_one fnmatch method prop_name self.
Proof.
  simpl. unfold mbind, py_bind, bind, ret.
  by destruct (remove_one fnmatch method prop_name self) as [[[]|e] s].
Qed.

Lemma remove_one_exact (fnmatch : string → string → bool) prop_name method
    self (meths : gset M) :
  PROP_TO_METHS self !! prop_name = Some meths →
  method ∈ meths →
  is_Some (PAT_METH_TO_KWARGS self !! (prop_name, method)) →
  remove_one fnmatch method prop_name self
  = (Ok tt,
     mkObserver (<[prop_name := meths ∖ {[method]}]> (PROP_TO_METHS self))
       (METH_TO_PROPS self) (PAT_TO_METHS self) (METH_TO_PAT self)
       (delete (prop_name, method) (PAT_METH_TO_KWARGS self))).
Proof.
  intros Hs Hin [kw Hkw].
  unfold remove_one, mbind, py_bind, bind, prop_to_meths_remove,
    remove_from, kwargs_del.
  rewrite Hs. rewrite (bool_decide_eq_true_2 _ Hin). simpl.
  by rewrite Hkw.
Qed.

Lemma forget_pattern_run method pat self :
  consistent self →
  METH_TO_PAT self !! method = Some pat →
  ∃ meths,
    PAT_TO_METHS self !! pat = Some meths ∧ method ∈ meths
    ∧ (meth_to_pat_del method ;; pat_to_meths_remove pat method) self
      = (Ok tt,
         mkObserver (PROP_TO_METHS self) (METH_TO_PROPS self)
           (<[pat := meths ∖ {[method]}]> (PAT_TO_METHS self))
           (delete method (METH_TO_PAT self)) (PAT_METH_TO_KWARGS self)).
Proof.
  intros [_ Hmp _ _] Hpat.
  destruct (Hmp _ _ Hpat) as [_ Hin].
  apply elem_of_default_Some in Hin as (meths & Hs & Hin).
  exists meths. split; [done|]. split; [done|].
  unfold mbind, py_bind, bind, meth_to_pat_del, pat_to_meths_remove,
    remove_from.
  rewrite Hpat. simpl. rewrite Hs.
  by rewrite (bool_decide_eq_true_2 _ Hin).
Qed.

Lemma remove_one_pattern_match (fnmatch : string → string → bool)
    prop_name method pat self :
  consistent self →
  PROP_TO_METHS self !! prop_name = None →
  METH_TO_PAT self !! method = Some pat →
  fnmatch prop_name pat = true →
  is_Some (PAT_METH_TO_KWARGS self !! (pat, method)) →
  ∃ meths,
    PAT_TO_METHS self !! pat = Some meths ∧ method ∈ meths
    ∧ remove_one fnmatch method prop_name self
      = (Ok tt,
         mkObserver (PROP_TO_METHS self) (METH_TO_PROPS self)
           (<[pat := meths ∖ {[method]}]> (PAT_TO_METHS self))
           (delete method (METH_TO_PAT self))
           (delete (pat, method) (PAT_METH_TO_KWARGS self))).
Proof.
  intros Hc Hnone Hpat Hf [kw Hkw].
  destruct (forget_pattern_run method pat self Hc Hpat)
    as (meths & Hs & Hin & Hrun).
  exists meths. split; [done|]. split; [done|].
  unfold remove_one. rewrite Hnone, Hpat, Hf.
  unfold mbind, py_bind, bind at 1.
  unfold mbind, py_bind in Hrun. rewrite Hrun.
  unfold kwargs_del. simpl. by rewrite Hkw.
Qed.

Lemma remove_one_pattern_no_match (fnmatch : string → string → bool)
    prop_name method pat self :
  PROP_TO_METHS self !! prop_name = None →
  METH_TO_PAT self !! method = Some pat →
  fnmatch prop_name pat = false →
  is_Some (PAT_METH_TO_KWARGS self !! (pat, method)) →
  remove_one fnmatch method prop_name self
  = (Ok tt,
     mkObserver (PROP_TO_METHS self) (METH_TO_PROPS self)
       (PAT_TO_METHS self) (METH_TO_PAT self)
       (delete (pat, method) (PAT_METH_TO_KWARGS self))).
Proof.
  intros Hnone Hpat Hf [kw Hkw].
  unfold remove_one. rewrite Hnone, Hpat, Hf.
  unfold mbind, py_bind, bind, ret, kwargs_del. by rewrite Hkw.
Qed.

Lemma settled_kwargs_del (key : string * M) self :
  settled self → settled (kwargs_del key self).2.
Proof.
  intros [Hkb Hpa]. unfold kwargs_del.
  destruct (PAT_METH_TO_KWARGS self !! key); [|by split].
  split; simpl; [|done].
  intros name x. rewrite lookup_delete. case_decide; [by intros [? ?]|].
  apply Hkb.
Qed.

Lemma settled_remove_one (fnmatch : string → string → bool) method
    prop_name self :
  consistent self → settled self →
  settled (remove_one fnmatch method prop_name self).2.
Proof.
  intros Hc Hs. pose proof Hs as [Hkb Hpa].
  unfold remove_one.
  destruct (PROP_TO_METHS self !! prop_name) as [meths|] eqn:Hp.
  - unfold mbind, py_bind, bind, prop_to_meths_remove, remove_from.
    rewrite Hp. case_bool_decide as Hin; [|done]. simpl.
    unfold kwargs_del. simpl.
    assert (∀ name x,
               (name, x) ≠ (prop_name, method) →
               x ∈ default ∅ (PROP_TO_METHS self !! name) →
               x ∈ default ∅ (<[prop_name := meths ∖ {[method]}]>
                                (PROP_TO_METHS self) !! name)) as Hkeep.
    { intros name x Hne Hx. rewrite lookup_insert. case_decide as Hn; [|done].
      subst name. simpl. rewrite Hp in Hx. simpl in Hx.
      apply elem_of_difference. split; [done|].
      rewrite elem_of_singleton. congruence. }
    destruct (PAT_METH_TO_KWARGS self !! (prop_name, method)) eqn:Hkw;
      simpl; (split; simpl; [|done]); intros name x.
    + rewrite lookup_delete. case_decide as Hk; [by intros [? ?]|].
      intros [Hl|Hr]%Hkb; [left | by right].
      apply Hkeep; [congruence | done].
    + intros Hsome.
      assert ((name, x) ≠ (prop_name, method)) as Hne.
      { intros Heq. rewrite Heq, Hkw in Hsome. by destruct Hsome. }
      apply Hkb in Hsome as [Hl|Hr]; [left | by right].
      by apply Hkeep.
  - destruct (METH_TO_PAT self !! method) as [pat|] eqn:Hpat; [|done].
    destruct (fnmatch prop_name pat).
    + destruct (forget_pattern_run method pat self Hc Hpat)
        as (meths & Hms & Hin & Hrun).
      unfold mbind, py_bind in Hrun.
      unfold mbind, py_bind, bind at 1. rewrite Hrun.
      unfold kwargs_del. simpl.
      destruct (PAT_METH_TO_KWARGS self !! (pat, method)) eqn:Hkw;
        simpl; split; simpl.
      * intros name x. rewrite lookup_delete.
        case_decide as Hk; [by intros [? ?]|].
        intros [Hl|Hr]%Hkb; [by left | right].
        rewrite lookup_delete_ne; [done|]. intros <-.
        rewrite Hpat in Hr. congruence.
      * intros x pat'. rewrite lookup_delete. case_decide; [done|].
        apply Hpa.
      * intros name x Hsome.
        destruct (Hkb _ _ Hsome) as [Hl|Hr]; [by left | right].
        rewrite lookup_delete_ne; [done|]. intros <-.
        rewrite Hpat in Hr. injection Hr as <-.
        rewrite Hkw in Hsome. by destruct Hsome.
      * intros x pat'. rewrite lookup_delete. case_decide; [done|].
        apply Hpa.
    + unfold mbind, py_bind, bind, ret. by apply settled_kwargs_del.
Qed.

Lemma both_remove_observing_method (fnmatch : string → string → bool)
    prop_names method self :
  consistent self ∧ settled self →
  consistent (remove_observing_method fnmatch prop_names method self).2
  ∧ settled (remove_observing_method fnmatch prop_names method self).2.
Proof.
  revert self.
  induction prop_names as [|prop_name rest IH]; intros self [Hc Hs].
  - done.
  - simpl.
    assert (consistent (remove_one fnmatch method prop_name self).2
            ∧ settled (remove_one fnmatch method prop_name self).2) as H1.
    { split; [by apply consistent_remove_one | by apply settled_remove_one]. }
    apply (bind_preserves (λ s, consistent s ∧ settled s)); [done|].
    intros [] self' Hrun. apply IH. by rewrite Hrun in H1.
Qed.

Lemma reachable_settled (fnmatch : string → string → bool) self :
  reachable fnmatch self → settled self.
Proof.
  induction 1 as [|self notified name kwargs Hr IH
                  |self prop_names method Hr IH].
  - apply settled_new.
  - by apply settled_register.
  - apply both_remove_observing_method. split; [|done].
    by apply (reachable_consistent fnmatch).
Qed.

(** *** Keyword arguments *)

(** X5.  The keyword arguments of a registration are read back by
    [get_observing_method_kwargs], and an answer it gives is not changed
    by any later registration, whether that one succeeds or raises. *)
Theorem kwargs_read_back self :
  (∀ name method kwargs self',
      register_notification name method kwargs self = (Ok tt, self') →
      get_observing_method_kwargs self' name method = Ok kwargs)
  ∧ (∀ prop_name method kw name' method' kwargs',
        get_observing_method_kwargs self prop_name method = Ok kw →
        get_observing_method_kwargs
          (register_notification name' method' kwargs' self).2
          prop_name method = Ok kw).
Proof.
  split.
  - intros name method kwargs self' Hr.
    apply register_notification_Ok in Hr as (_ & _ & Hkw & _).
    unfold get_observing_method_kwargs. by rewrite Hkw, lookup_insert_eq.
  - intros prop_name method kw name' method' kwargs' Hget.
    destruct (register_notification_cases name' method' kwargs' self)
      as [-> | [self' Hr]]; [done|].
    rewrite Hr. simpl.
    apply register_notification_Ok in Hr as (Hkey & Hnopat & Hkw & Hr).
    assert (∀ m, m ≠ method' →
                 METH_TO_PAT self' !! m = METH_TO_PAT self !! m) as Hm2p.
    { intros m Hm. destruct (has_wildcards name').
      - destruct Hr as (_ & _ & _ & _ & ->). by rewrite lookup_insert_ne.
      - by destruct Hr as (_ & _ & _ & ->). }
    unfold get_observing_method_kwargs in *. rewrite Hkw.
    destruct (PAT_METH_TO_KWARGS self !! (prop_name, method)) as [kw0|]
      eqn:Hk0.
    + rewrite lookup_insert_ne; [by rewrite Hk0 | congruence].
    + destruct (METH_TO_PAT self !! method) as [pat|] eqn:Hpat;
        simpl in Hget; [|by rewrite Hk0 in Hget].
      assert (method ≠ method') as Hne by congruence.
      rewrite (Hm2p method Hne), Hpat. simpl.
      rewrite !lookup_insert_ne by congruence.
      by rewrite Hk0.
Qed.

Section Matching.
Variable fnmatch : string → string → bool.

(** X6.  For a method under a pattern, [get_observing_method_kwargs] gives
    the keyword arguments of the pattern for every property name,
    whether the pattern matches it or not; for a method under no pattern
    and not under the name asked, it raises [KeyError]. *)
Theorem kwargs_of_pattern_method self method :
  reachable fnmatch self →
  (∀ pat kw,
      METH_TO_PAT self !! method = Some pat →
      PAT_METH_TO_KWARGS self !! (pat, method) = Some kw →
      ∀ prop_name, get_observing_method_kwargs self prop_name method = Ok kw)
  ∧ (∀ prop_name,
        METH_TO_PAT self !! method = None →
        method ∉ default ∅ (PROP_TO_METHS self !! prop_name) →
        get_observing_method_kwargs self prop_name method = Raise KeyError).
Proof.
  intros Hreach.
  pose proof (reachable_consistent fnmatch self Hreach) as Hc.
  pose proof (reachable_settled fnmatch self Hreach) as Hs.
  pose proof Hs as [Hkb _].
  split.
  - intros pat kw Hpat Hkw prop_name. unfold get_observing_method_kwargs.
    destruct (PAT_METH_TO_KWARGS self !! (prop_name, method)) as [kw0|]
      eqn:Hk0.
    + destruct (Hkb prop_name method) as [Hl|Hr]; [by rewrite Hk0 | |].
      * apply (exact_no_pattern self _ _ Hc Hs) in Hl. congruence.
      * rewrite Hpat in Hr. injection Hr as <-. congruence.
    + rewrite Hpat. simpl. by rewrite Hkw.
  - intros prop_name Hnopat Hnot. unfold get_observing_method_kwargs.
    destruct (PAT_METH_TO_KWARGS self !! (prop_name, method)) as [kw0|]
      eqn:Hk0.
    + destruct (Hkb prop_name method) as [Hl|Hr]; [by rewrite Hk0 | done |].
      congruence.
    + rewrite Hnopat. simpl. by rewrite Hk0.
Qed.

(** *** [is_observing_method] and [get_observing_methods] *)

(** X7.  [is_observing_method] answers as [get_observing_methods] does, but
    for one case: it also says yes when asked about the very string a
    method was registered under as a pattern.  For a name without
    wildcards the two agree. *)
Theorem is_observing_method_dispatch self prop_name method :
  reachable fnmatch self →
  (is_observing_method fnmatch self prop_name method = true
   ↔ method ∈ get_observing_methods fnmatch self prop_name
     ∨ (METH_TO_PAT self !! method = Some prop_name
        ∧ is_Some (PAT_METH_TO_KWARGS self !! (prop_name, method))))
  ∧ (has_wildcards prop_name = false →
     (is_observing_method fnmatch self prop_name method = true
      ↔ method ∈ get_observing_methods fnmatch self prop_name)).
Proof.
  intros Hreach.
  pose proof (reachable_consistent fnmatch self Hreach) as [Hpm Hmp Hprop _].
  pose proof (reachable_settled fnmatch self Hreach) as [Hkb _].
  assert (is_observing_method fnmatch self prop_name method = true
          ↔ method ∈ get_observing_methods fnmatch self prop_name
            ∨ (METH_TO_PAT self !! method = Some prop_name
               ∧ is_Some (PAT_METH_TO_KWARGS self !! (prop_name, method))))
    as Hiff.
  { rewrite elem_of_get_observing_methods. unfold is_observing_method.
    split.
    - case_bool_decide as Hk.
      + intros _. destruct (Hkb _ _ Hk) as [Hl|Hr]; [by left; left|].
        by right.
      + destruct (METH_TO_PAT self !! method) as [pat|] eqn:Hpat; [|done].
        intros Hf. left. right. exists pat. split; [done|].
        by apply Hmp.
    - intros [[Hl|(pat & Hf & Hin)]|[_ Hk]].
      + destruct (Hprop _ _ Hl) as [_ Hk].
        by rewrite (bool_decide_eq_true_2 _ Hk).
      + case_bool_decide; [done|]. by rewrite (Hpm _ _ Hin).
      + by rewrite (bool_decide_eq_true_2 _ Hk). }
  split; [done|].
  intros Hw. rewrite Hiff. split; [|by left].
  intros [?|[Hpat _]]; [done|].
  destruct (Hmp _ _ Hpat) as [Hw' _]. congruence.
Qed.

(** *** Removing registrations *)

(** X8.  Removing a method from an exact name it is under returns normally
    and takes exactly that pair out of the dispatch; every other answer
    of [get_observing_methods] stays. *)
Theorem remove_exact_registration self prop_name method :
  reachable fnmatch self →
  method ∈ default ∅ (PROP_TO_METHS self !! prop_name) →
  ∃ self',
    remove_observing_method fnmatch [prop_name] method self = (Ok tt, self')
    ∧ (∀ name x,
          x ∈ get_observing_methods fnmatch self' name
          ↔ x ∈ get_observing_methods fnmatch self name
            ∧ ¬ (name = prop_name ∧ x = method))
    ∧ is_observing_method fnmatch self' prop_name method = false.
Proof.
  intros Hreach Hin.
  pose proof (reachable_consistent fnmatch self Hreach) as Hc.
  pose proof (reachable_settled fnmatch self Hreach) as Hs.
  pose proof Hc as [Hpm _ Hprop _].
  destruct (Hprop _ _ Hin) as [_ Hkw].
  pose proof (exact_no_pattern self _ _ Hc Hs Hin) as Hnopat.
  apply elem_of_default_Some in Hin as (meths & Hp & Hin).
  eexists. split; [|split].
  - rewrite remove_single. by apply remove_one_exact.
  - intros name x. rewrite !elem_of_get_observing_methods. simpl.
    rewrite lookup_insert. case_decide as Hn.
    + subst name. simpl. rewrite Hp. simpl.
      rewrite elem_of_difference, elem_of_singleton. split.
      * intros [[Hx Hne]|Hpat]; [split; [by left | tauto]|].
        split; [by right|]. intros [_ ->].
        destruct Hpat as (pat & _ & Hx). apply Hpm in Hx. congruence.
      * intros [[Hx|Hpat] Hne]; [left | by right].
        split; [done|]. intros ->. by apply Hne.
    + split; [|tauto]. intros Hx. split; [done|]. intros [-> _]. done.
  - unfold is_observing_method. simpl. rewrite lookup_delete_eq.
    rewrite bool_decide_eq_false_2 by (by intros [? ?]).
    by rewrite Hnopat.
Qed.


(** X10.  Removing a method under a pattern, by a name the pattern matches
    and no method observes exactly: the call returns normally, the method
    leaves the dispatch of every property name, all else stays, and the
    method can be registered for a pattern again. *)
Theorem remove_pattern_registration self prop_name method pat :
  reachable fnmatch self →
  PROP_TO_METHS self !! prop_name = None →
  METH_TO_PAT self !! method = Some pat →
  fnmatch prop_name pat = true →
  is_Some (PAT_METH_TO_KWARGS self !! (pat, method)) →
  ∃ self',
    remove_observing_method fnmatch [prop_name] method self = (Ok tt, self')
    ∧ (∀ name x,
          x ∈ get_observing_methods fnmatch self' name
          ↔ x ∈ get_observing_methods fnmatch self name ∧ x ≠ method)
    ∧ ∀ pat' kwargs',
        has_wildcards pat' = true →
        ∃ self'',
          register_notification pat' method kwargs' self' = (Ok tt, self'').
Proof.
  intros Hreach Hnone Hpat Hf Hkw.
  pose proof (reachable_consistent fnmatch self Hreach) as Hc.
  pose proof (reachable_settled fnmatch self Hreach) as Hs.
  pose proof Hc as [Hpm _ _ _]. pose proof Hs as [Hkb Hpa].
  destruct (remove_one_pattern_match fnmatch _ _ _ _ Hc Hnone Hpat Hf Hkw)
    as (meths & Hms & Hin & Hrun).
  eexists. split; [|split].
  - rewrite remove_single. exact Hrun.
  - intros name x. rewrite !elem_of_get_observing_methods. simpl.
    assert (∀ q, method ∉ default ∅ (PROP_TO_METHS self !! q)) as Hnoex.
    { intros q Hx. apply (exact_no_pattern self _ _ Hc Hs) in Hx.
      congruence. }
    split.
    + intros [Hx|(pat' & Hf' & Hx)].
      * split; [by left|]. intros ->. by apply (Hnoex name).
      * revert Hx. rewrite lookup_insert. case_decide as Hp.
        -- subst pat'. simpl.
           intros [Hx Hne%not_elem_of_singleton]%elem_of_difference.
           split; [|done]. right. exists pat. by rewrite Hms.
        -- intros Hx. split; [right; eauto|]. intros ->.
           apply Hpm in Hx. congruence.
    + intros [[Hx|(pat' & Hf' & Hx)] Hne]; [by left|].
      right. exists pat'. split; [done|].
      rewrite lookup_insert. case_decide as Hp; [|done].
      subst pat'. simpl. rewrite Hms in Hx. simpl in Hx.
      apply elem_of_difference. split; [done|].
      by apply not_elem_of_singleton.
  - intros pat' kwargs' Hw'. unfold register_notification. simpl.
    rewrite bool_decide_eq_false_2.
    + rewrite Hw', lookup_delete_eq.
      rewrite (bool_decide_eq_false_2 (is_Some None)) by (by intros [? ?]).
      pose proof (Hpa _ _ Hpat) as Hemp.
      destruct (METH_TO_PROPS self !! method) as [props|]; simpl in *.
      * subst props. rewrite bool_decide_eq_true_2 by done. simpl. eauto.
      * eauto.
    + rewrite lookup_delete. case_decide as Hk; [by intros [? ?]|].
      intros [Hl|Hr]%Hkb.
      * apply (exact_no_pattern self _ _ Hc Hs) in Hl. congruence.
      * rewrite Hpat in Hr. congruence.
Qed.

(** X11.  Removing a method under a pattern, by a name the pattern does
    not match and no method observes exactly.  While the keyword
    arguments of the method are kept, the call returns normally and
    changes no answer of [get_observing_methods], but it deletes the
    keyword arguments: from then on [get_observing_method_kwargs] raises
    [KeyError] for the method, and so does the same removal made again.
    When the keyword arguments are not kept, the call raises
    [KeyError] and changes nothing. *)
Theorem remove_by_unmatched_name self prop_name method pat :
  reachable fnmatch self →
  PROP_TO_METHS self !! prop_name = None →
  METH_TO_PAT self !! method = Some pat →
  fnmatch prop_name pat = false →
  (is_Some (PAT_METH_TO_KWARGS self !! (pat, method)) →
   ∃ self',
     remove_observing_method fnmatch [prop_name] method self = (Ok tt, self')
     ∧ (∀ name, get_observing_methods fnmatch self' name
                = get_observing_methods fnmatch self name)
     ∧ (∀ name, get_observing_method_kwargs self' name method
                = Raise KeyError)
     ∧ remove_observing_method fnmatch [prop_name] method self'
       = (Raise KeyError, self'))
  ∧ (PAT_METH_TO_KWARGS self !! (pat, method) = None →
     remove_observing_method fnmatch [prop_name] method self
     = (Raise KeyError, self)).
Proof.
  intros Hreach Hnone Hpat Hf.
  pose proof (reachable_consistent fnmatch self Hreach) as Hc.
  pose proof (reachable_settled fnmatch self Hreach) as Hs.
  pose proof Hs as [Hkb _].
  assert (∀ s : observer M KW,
             PROP_TO_METHS s !! prop_name = None →
             METH_TO_PAT s !! method = Some pat →
             PAT_METH_TO_KWARGS s !! (pat, method) = None →
             remove_observing_method fnmatch [prop_name] method s
             = (Raise KeyError, s)) as Hmissing.
  { intros s Hn Hp Hk. rewrite remove_single.
    unfold remove_one. rewrite Hn, Hp, Hf.
    unfold mbind, py_bind, bind, ret, kwargs_del. by rewrite Hk. }
  split; [|by apply Hmissing].
  intros Hkw. eexists. split; [|split; [|split]].
  - rewrite remove_single. by apply (remove_one_pattern_no_match _ _ _ pat).
  - done.
  - intros name. unfold get_observing_method_kwargs. simpl.
    assert (delete (pat, method) (PAT_METH_TO_KWARGS self) !! (name, method)
            = None) as ->.
    { rewrite lookup_delete. case_decide as Hk; [done|].
      apply eq_None_not_Some. intros [Hl|Hr]%Hkb.
      - apply (exact_no_pattern self _ _ Hc Hs) in Hl. congruence.
      - rewrite Hpat in Hr. congruence. }
    rewrite Hpat. simpl. by rewrite lookup_delete_eq.
  - apply Hmissing; simpl; [done | done | apply lookup_delete_eq].
Qed.

(** X12.  The exact names are looked at first: by a name that some method
    observes exactly, a method under a pattern cannot be removed; the
    call raises [KeyError] and changes nothing, whatever follows in the
    list. *)
Theorem exact_name_hides_pattern self prop_name method pat
    (rest : list string) :
  reachable fnmatch self →
  is_Some (PROP_TO_METHS self !! prop_name) →
  METH_TO_PAT self !! method = Some pat →
  remove_observing_method fnmatch (prop_name :: rest) method self
  = (Raise KeyError, self).
Proof.
  intros Hreach [meths Hp] Hpat.
  pose proof (reachable_consistent fnmatch self Hreach) as Hc.
  pose proof (reachable_settled fnmatch self Hreach) as Hs.
  assert (method ∉ meths) as Hnot.
  { intros Hin.
    assert (METH_TO_PAT self !! method = None) as Hn; [|congruence].
    apply (exact_no_pattern self prop_name _ Hc Hs). by rewrite Hp. }
  simpl. unfold mbind, py_bind, bind, remove_one at 1. rewrite Hp.
  unfold mbind, py_bind, bind, prop_to_meths_remove, remove_from.
  rewrite Hp. by rewrite (bool_decide_eq_false_2 _ Hnot).
Qed.

End Matching.

End ObserverMore.

(** * Batches of registrations *)

Section BatchFacts.
Import Observer Registry.
Context {M : Type} {EqM : EqDecision M} {CountM : Countable M} {KW : Type}.
Implicit Types (self : observer M KW) (method : M) (kwargs : KW).
Implicit Types (prop_name name pat : string).
Implicit Types (calls : list (string * M * KW)) (log : list (string * M)).

(** *** When a registration succeeds *)

Lemma register_notification_Ok_iff prop_name method kwargs self self' :
  register_notification prop_name method kwargs self = (Ok tt, self')
  ↔ PAT_METH_TO_KWARGS self !! (prop_name, method) = None
    ∧ METH_TO_PAT self !! method = None
    ∧ (has_wildcards prop_name = true →
       default ∅ (METH_TO_PROPS self !! method) = ∅)
    ∧ self' = recorded prop_name method kwargs self.
Proof.
  unfold register_notification, recorded. split.
  - case_bool_decide as Hk; [done|]. apply eq_None_not_Some in Hk.
    destruct (has_wildcards prop_name).
    + case_bool_decide as Hp; simpl; [done|].
      apply eq_None_not_Some in Hp.
      destruct (METH_TO_PROPS self !! method) as [props|]; simpl.
      * case_bool_decide as He; simpl; [|done]. intros [= <-]. by subst.
      * by intros [= <-].
    + case_bool_decide as Hp; [done|]. apply eq_None_not_Some in Hp.
      by intros [= <-].
  - intros (Hk & Hp & Hmp & ->).
    rewrite Hk, Hp.
    rewrite (bool_decide_eq_false_2 (is_Some None)) by (by intros [? ?]).
    destruct (has_wildcards prop_name); [|done].
    specialize (Hmp eq_refl).
    destruct (METH_TO_PROPS self !! method) as [props|]; simpl in *; [|done].
    subst props. by rewrite bool_decide_eq_true_2.
Qed.

Lemma add_to_comm {K X : Type}
    {EqK : EqDecision K} {CountK : Countable K}
    {EqX : EqDecision X} {CountX : Countable X}
    (k1 k2 : K) (x1 x2 : X) (d : gmap K (gset X)) :
  add_to k1 x1 (add_to k2 x2 d) = add_to k2 x2 (add_to k1 x1 d).
Proof.
  apply map_eq. intros k. rewrite !lookup_add_to.
  destruct (decide (k1 = k)) as [<-|H1], (decide (k2 = k1)) as [->|H2];
    try done.
  - rewrite decide_True by done. simpl. f_equal.
    rewrite <- !(assoc_L (∪)). f_equal. apply (comm_L (∪)).
  - rewrite decide_False by done. simpl. by rewrite decide_False.
  - destruct (decide (k2 = k)) as [<-|H3].
    + rewrite decide_False by done. done.
    + done.
Qed.

Lemma recorded_comm name1 method1 kwargs1 name2 method2 kwargs2 self :
  (name1, method1) ≠ (name2, method2) →
  (has_wildcards name1 = true → has_wildcards name2 = true →
   method1 ≠ method2) →
  recorded name1 method1 kwargs1 (recorded name2 method2 kwargs2 self)
  = recorded name2 method2 kwargs2 (recorded name1 method1 kwargs1 self).
Proof.
  intros Hkey Hmeth. unfold recorded.
  destruct (has_wildcards name1), (has_wildcards name2); simpl; f_equal;
    try apply add_to_comm; try (by apply insert_insert_ne).
  apply insert_insert_ne. by apply Hmeth.
Qed.

(** Two registrations that succeed one after the other succeed in the
    other order too, and leave the same maps. *)
Lemma register_notification_swap
    name1 method1 kwargs1 name2 method2 kwargs2 self self1 self12 :
  register_notification name1 method1 kwargs1 self = (Ok tt, self1) →
  register_notification name2 method2 kwargs2 self1 = (Ok tt, self12) →
  ∃ self2,
    register_notification name2 method2 kwargs2 self = (Ok tt, self2)
    ∧ register_notification name1 method1 kwargs1 self2 = (Ok tt, self12).
Proof.
  intros (Hk1 & Hp1 & Hmp1 & ->)%register_notification_Ok_iff
         (Hk2 & Hp2 & Hmp2 & ->)%register_notification_Ok_iff.
  assert ((name1, method1) ≠ (name2, method2)) as Hkey.
  { intros [= <- <-]. revert Hk2. unfold recorded.
    destruct (has_wildcards name1); simpl; by rewrite lookup_insert_eq. }
  assert (PAT_METH_TO_KWARGS self !! (name2, method2) = None) as Hk2'.
  { revert Hk2. unfold recorded.
    destruct (has_wildcards name1); simpl; by rewrite lookup_insert_ne. }
  assert (has_wildcards name1 = true → method1 ≠ method2) as Hw1.
  { intros Hw <-. revert Hp2. unfold recorded. rewrite Hw. simpl.
    by rewrite lookup_insert_eq. }
  assert (METH_TO_PAT self !! method2 = None) as Hp2'.
  { revert Hp2. unfold recorded.
    destruct (has_wildcards name1) eqn:Hw; simpl; [|done].
    rewrite lookup_insert_ne; [done|]. by apply Hw1. }
  assert (has_wildcards name2 = true → method1 ≠ method2) as Hw2.
  { intros Hw <-. specialize (Hmp2 Hw). revert Hmp2. unfold recorded.
    destruct (has_wildcards name1) eqn:Hw'; simpl.
    - intros _. by apply Hw1.
    - rewrite lookup_add_to, decide_True by done. simpl. intros Hemp.
      assert (name1 ∈ (∅ : gset string)) as Hx; [|done].
      rewrite <- Hemp. apply elem_of_union. right.
      by apply elem_of_singleton. }
  assert (has_wildcards name2 = true →
          default ∅ (METH_TO_PROPS self !! method2) = ∅) as Hmp2'.
  { intros Hw. pose proof (Hmp2 Hw) as Hemp. revert Hemp. unfold recorded.
    destruct (has_wildcards name1); simpl; [done|].
    rewrite lookup_add_to, decide_False; [done|]. by apply Hw2. }
  exists (recorded name2 method2 kwargs2 self). split.
  - by apply register_notification_Ok_iff.
  - apply register_notification_Ok_iff. split; [|split; [|split]].
    + unfold recorded. destruct (has_wildcards name2); simpl;
        by rewrite lookup_insert_ne.
    + unfold recorded. destruct (has_wildcards name2) eqn:Hw; simpl; [|done].
      rewrite lookup_insert_ne; [done|]. intros Heq. by apply Hw2.
    + intros Hw. unfold recorded.
      destruct (has_wildcards name2) eqn:Hw'; simpl; [by apply Hmp1|].
      rewrite lookup_add_to, decide_False; [by apply Hmp1|].
      intros Heq. by apply Hw1.
    + apply recorded_comm; [congruence|].
      intros _ Hw Heq. by apply Hw1.
Qed.

Lemma observe_all_cons_Ok name notified kwargs calls self self' :
  observe_all ((name, notified, kwargs) :: calls) self = (Ok tt, self')
  ↔ ∃ self1,
      register_notification name notified kwargs self = (Ok tt, self1)
      ∧ observe_all calls self1 = (Ok tt, self').
Proof.
  simpl. unfold mbind, py_bind, bind, observe.
  destruct (register_notification name notified kwargs self)
    as [[[]|e] self1]; split.
  - eauto.
  - by intros (? & [= <-] & ?).
  - done.
  - by intros (? & [=] & ?).
Qed.

(** X13.  The order of the registrations of a batch does not matter: a batch
    that succeeds succeeds in any other order, with the same maps. *)
Theorem observe_all_any_order calls calls' self self' :
  calls ≡ₚ calls' →
  observe_all calls self = (Ok tt, self') →
  observe_all calls' self = (Ok tt, self').
Proof.
  intros Hperm. revert self self'.
  induction Hperm as [|[[name notified] kwargs] l l' _ IH
                      |[[n1 m1] k1] [[n2 m2] k2] l
                      |l l' l'' _ IH1 _ IH2]; intros self self'.
  - done.
  - rewrite !observe_all_cons_Ok. intros (self1 & Hr & Hrest).
    exists self1. split; [done | by apply IH].
  - rewrite !observe_all_cons_Ok. intros (self2 & Hr2 & Hrest).
    apply observe_all_cons_Ok in Hrest as (self21 & Hr1 & Hrest).
    destruct (register_notification_swap _ _ _ _ _ _ _ _ _ Hr2 Hr1)
      as (self1 & Hr1' & Hr2').
    exists self1. split; [done|].
    apply observe_all_cons_Ok. eauto.
  - intros Hrun. by apply IH2, IH1.
Qed.

(** *** Which batches succeed *)

Lemma observe_all_raise calls self e :
  (observe_all calls self).1 = Raise e → e = ValueError.
Proof.
  revert self. induction calls as [|[[name notified] kwargs] rest IH];
    intros self; simpl; [done|].
  unfold mbind, py_bind, bind, observe.
  destruct (register_notification name notified kwargs self)
    as [[[]|e'] self1] eqn:Hr.
  - apply IH.
  - simpl. intros [= <-].
    apply (register_notification_raise name notified kwargs self e').
    by rewrite Hr.
Qed.

Lemma compatible_cons name method log :
  compatible ((name, method) :: log)
  ↔ ((name, method) ∉ log)
    ∧ (∀ name', (name', method) ∈ log →
                has_wildcards name = false ∧ has_wildcards name' = false)
    ∧ compatible log.
Proof.
  unfold compatible. rewrite NoDup_cons. split.
  - intros [[Hnot Hnd] Hc]. split; [done|]. split; [|split; [done|]].
    + intros name' Hin.
      assert (name ≠ name') as Hne by (intros <-; done).
      split.
      * apply (Hc name name' method); [left | by right | done].
      * apply (Hc name' name method); [by right | left | done].
    + intros n1 n2 x H1 H2. apply (Hc n1 n2 x); by right.
  - intros (Hnot & Hcond & Hnd & Hc). split; [done|].
    intros n1 n2 x [E1|H1]%elem_of_cons [E2|H2]%elem_of_cons Hne.
    + congruence.
    + injection E1 as -> ->. by apply (Hcond n2).
    + injection E2 as -> ->. by apply (Hcond n1).
    + by apply (Hc n1 n2 x).
Qed.

Lemma compatible_Permutation log log' :
  log ≡ₚ log' → compatible log → compatible log'.
Proof.
  intros Hperm [Hnd Hc]. split; [by rewrite <- Hperm|].
  intros n1 n2 x. rewrite <- !Hperm. apply Hc.
Qed.

(** After registrations only, the properties of a method are the exact
    names it is registered under. *)
Lemma after_registrations_props self log :
  after_registrations self log →
  ∀ name method,
    name ∈ default ∅ (METH_TO_PROPS self !! method) →
    method ∈ default ∅ (PROP_TO_METHS self !! name).
Proof.
  induction 1 as [|self log prop_name notified kwargs self' _ IH Hobs
                  |self log prop_name notified kwargs e _ IH Hobs];
    intros name method.
  - simpl. rewrite lookup_empty. simpl.
    intros Hx. by apply not_elem_of_empty in Hx.
  - apply register_notification_Ok_iff in Hobs as (_ & _ & _ & ->).
    unfold recorded. destruct (has_wildcards prop_name); simpl; [apply IH|].
    rewrite !elem_of_add_to. intros [Hx|[-> ->]]; [left; by apply IH|].
    by right.
  - unfold observe in *.
    apply register_notification_raise in Hobs as [_ ->]. apply IH.
Qed.

Lemma register_notification_succeeds_iff self log name method kwargs :
  after_registrations self log →
  (register_notification name method kwargs self).1 = Ok tt
  ↔ ((name, method) ∉ log)
    ∧ ∀ name', (name', method) ∈ log →
               has_wildcards name = false ∧ has_wildcards name' = false.
Proof.
  intros Hreg.
  pose proof (reachable_consistent (λ _ _, false) self
                (after_registrations_reachable _ _ _ Hreg))
    as [Hpm Hmp Hprop _].
  pose proof (after_registrations_maps self log Hreg) as Hmaps.
  pose proof (after_registrations_props self log Hreg) as Hprops.
  assert ((register_notification name method kwargs self).1 = Ok tt
          ↔ ∃ self', register_notification name method kwargs self
                     = (Ok tt, self')) as ->.
  { destruct (register_notification name method kwargs self)
      as [[[]|e] s]; simpl; split; eauto; try done.
    by intros [? [=]]. }
  split.
  - intros [self' (Hk & Hp & Hmpe & _)%register_notification_Ok_iff].
    split.
    + intros Hin. apply (Hmaps name method) in Hin.
      rewrite Hk in Hin. by destruct Hin.
    + intros name' Hin.
      destruct (has_wildcards name') eqn:Hw'.
      * assert (method ∈ default ∅ (PAT_TO_METHS self !! name')) as Hx
          by (by apply (Hmaps name' method)).
        apply Hpm in Hx. congruence.
      * assert (method ∈ default ∅ (PROP_TO_METHS self !! name')) as Hx
          by (by apply (Hmaps name' method)).
        destruct (Hprop _ _ Hx) as [Hn _].
        destruct (has_wildcards name) eqn:Hw; [|done].
        rewrite (Hmpe eq_refl) in Hn. by apply not_elem_of_empty in Hn.
  - intros [Hnot Hcond]. eexists.
    apply register_notification_Ok_iff. split; [|split; [|split; [|done]]].
    + apply eq_None_not_Some. intros Hs. apply Hnot.
      by apply (Hmaps name method).
    + destruct (METH_TO_PAT self !! method) as [pat|] eqn:Hpat; [|done].
      destruct (Hmp _ _ Hpat) as [Hw Hin].
      apply (Hmaps pat method) in Hin as [Hin _].
      destruct (Hcond _ Hin) as [_ Hw']. congruence.
    + intros Hw. apply set_eq. intros name'. split; [|by intros ?%not_elem_of_empty].
      intros Hin%Hprops. apply (Hmaps name' method) in Hin as [Hin _].
      destruct (Hcond _ Hin) as [Hw' _]. congruence.
Qed.

Lemma after_registrations_compatible self log :
  after_registrations self log → compatible log.
Proof.
  induction 1 as [|self log prop_name notified kwargs self' Hreg IH Hobs
                  |self log prop_name notified kwargs e _ IH Hobs].
  - split; [constructor|]. intros ? ? ? Hin. by apply elem_of_nil in Hin.
  - apply compatible_cons.
    destruct (proj1 (register_notification_succeeds_iff self log prop_name
                       notified kwargs Hreg)) as [Hnot Hcond].
    { unfold observe in Hobs. by rewrite Hobs. }
    done.
  - done.
Qed.

Lemma observe_all_log calls self self' log :
  after_registrations self log →
  observe_all calls self = (Ok tt, self') →
  after_registrations self' (reverse calls.*1 ++ log).
Proof.
  revert self log.
  induction calls as [|[[name notified] kwargs] rest IH]; intros self log Hreg.
  - by intros [= <-].
  - intros (self1 & Hr & Hrest)%observe_all_cons_Ok.
    rewrite fmap_cons, reverse_cons, <- app_assoc. simpl.
    apply (IH self1); [|done].
    by apply (after_ok self log name notified kwargs).
Qed.

Lemma observe_all_Ok_iff calls self log :
  after_registrations self log →
  ((observe_all calls self).1 = Ok tt ↔ compatible (calls.*1 ++ log))
  ∧ ((observe_all calls self).1 = Ok tt
     ∨ (observe_all calls self).1 = Raise ValueError).
Proof.
  intros Hreg. split.
  - revert self log Hreg.
    induction calls as [|[[name notified] kwargs] rest IH];
      intros self log Hreg.
    + simpl. split; [|done]. intros _.
      by apply (after_registrations_compatible self).
    + assert ((observe_all ((name, notified, kwargs) :: rest) self).1 = Ok tt
              ↔ ∃ self1,
                  register_notification name notified kwargs self
                  = (Ok tt, self1)
                  ∧ (observe_all rest self1).1 = Ok tt) as ->.
      { simpl. unfold mbind, py_bind, bind, observe.
        destruct (register_notification name notified kwargs self)
          as [[[]|e] self1]; simpl; split.
        - eauto.
        - by intros (? & [= <-] & ?).
        - done.
        - by intros (? & [=] & ?). }
      rewrite fmap_cons. simpl. split.
      * intros (self1 & Hr & Hrest).
        apply (compatible_Permutation (rest.*1 ++ (name, notified) :: log));
          [by rewrite Permutation_middle|].
        apply (IH self1); [|done].
        by apply (after_ok self log name notified kwargs).
      * intros Hc. pose proof Hc as (Hnot & Hcond & _)%compatible_cons.
        destruct (register_notification name notified kwargs self)
          as [r self1] eqn:Hr.
        assert (r = Ok tt) as ->.
        { change r with (r, self1).1. rewrite <- Hr.
          apply (register_notification_succeeds_iff self log); [done|].
          split.
          - intros Hin. apply Hnot. apply elem_of_app. by right.
          - intros name' Hin. apply Hcond. apply elem_of_app. by right. }
        exists self1. split; [done|].
        apply (IH self1 ((name, notified) :: log)).
        -- by apply (after_ok self log name notified kwargs).
        -- apply (compatible_Permutation _ _ (Permutation_middle _ _ _)).
           done.
  - destruct (observe_all calls self) as [[[]|e] s] eqn:Hrun; simpl;
      [by left | right].
    f_equal. apply (observe_all_raise calls self). by rewrite Hrun.
Qed.


Lemma observe_all_keeps_kwargs calls self self' (key : string * M) kw :
  observe_all calls self = (Ok tt, self') →
  PAT_METH_TO_KWARGS self !! key = Some kw →
  PAT_METH_TO_KWARGS self' !! key = Some kw.
Proof.
  revert self. induction calls as [|[[name notified] kwargs] rest IH];
    intros self.
  - by intros [= <-].
  - intros (self1 & Hr & Hrest)%observe_all_cons_Ok Hk.
    apply (IH self1 Hrest).
    apply register_notification_Ok_iff in Hr as (Hnone & _ & _ & ->).
    unfold recorded. destruct (has_wildcards name); simpl;
      (rewrite lookup_insert_ne; [done | congruence]).
Qed.

Lemma observe_all_kwargs calls self self' name method kwargs :
  observe_all calls self = (Ok tt, self') →
  (name, method, kwargs) ∈ calls →
  PAT_METH_TO_KWARGS self' !! (name, method) = Some kwargs.
Proof.
  revert self. induction calls as [|[[n m] kw] rest IH]; intros self.
  - by intros _ ?%elem_of_nil.
  - intros (self1 & Hr & Hrest)%observe_all_cons_Ok [E|Hin]%elem_of_cons.
    + injection E as -> -> ->.
      apply (observe_all_keeps_kwargs rest self1 self' _ _ Hrest).
      apply register_notification_Ok_iff in Hr as (_ & _ & _ & ->).
      unfold recorded. destruct (has_wildcards n); simpl;
        apply lookup_insert_eq.
    + by apply (IH self1).
Qed.

End BatchFacts.

(** * Instantiation as a batch of registrations *)

Section DeclaredFacts.
Import Observer Registry.
Context {KW : Type}.
Implicit Types (self : observer callable KW) (inst : gmap string positive).
Implicit Types (mro classes : list (class (KW:=KW))) (cls : class (KW:=KW)).
Implicit Types (processed_props cls_processed_props : gset string).
Implicit Types (calls : list (string * callable * KW)).

Lemma register_all_observe_all {M : Type} {EqM : EqDecision M}
    {CountM : Countable M} (l : list (string * M * KW)) :
  register_all l = observe_all l.
Proof.
  induction l as [|[[name notified] kwargs] l IH]; simpl; [done|].
  unfold observe. by rewrite IH.
Qed.

Lemma observe_all_checked_callable {M : Type} {EqM : EqDecision M}
    {CountM : Countable M} (is_callable : M → bool)
    (l : list (string * M * KW)) (s : observer M KW) :
  Forall (λ c, is_callable c.1.2 = true) l →
  observe_all_checked is_callable l s = register_all l s.
Proof.
  intros Hall. revert s.
  induction Hall as [|[[name notified] kwargs] l Hc _ IH]; intros s;
    simpl; [done|].
  simpl in Hc. unfold observe_checked. rewrite Hc.
  unfold mbind, py_bind, bind.
  destruct (register_notification name notified kwargs s)
    as [[[]|e] s1]; [|done].
  apply IH.
Qed.

Lemma observe_all_checked_Ok {M : Type} {EqM : EqDecision M}
    {CountM : Countable M} (is_callable : M → bool)
    (l : list (string * M * KW)) (s : observer M KW) :
  (observe_all_checked is_callable l s).1 = Ok tt →
  Forall (λ c, is_callable c.1.2 = true) l.
Proof.
  revert s. induction l as [|[[name notified] kwargs] l IH]; intros s;
    simpl; [by constructor|].
  unfold observe_checked, mbind, py_bind, bind.
  destruct (is_callable notified) eqn:Hc; [|done].
  destruct (register_notification name notified kwargs s)
    as [[[]|e] s1]; [|done].
  intros Hrun. constructor; [done | by apply (IH s1)].
Qed.

Lemma register_all_app {M : Type} {EqM : EqDecision M} {CountM : Countable M}
    (l1 l2 : list (string * M * KW)) (s : observer M KW) :
  register_all (l1 ++ l2) s = (register_all l1 ≫= λ _, register_all l2) s.
Proof.
  revert s. induction l1 as [|[[name notified] kwargs] l1 IH]; intros s.
  - done.
  - simpl. unfold mbind, py_bind, bind in *.
    destruct (register_notification name notified kwargs s)
      as [[[]|e] s1]; [|done].
    apply IH.
Qed.

Lemma names_of_app calls1 calls2 :
  names_of (calls1 ++ calls2) = names_of calls1 ∪ names_of calls2.
Proof. unfold names_of. by rewrite fmap_app, list_to_set_app_L. Qed.

Lemma process_pnames_calls processed_props (_method : callable)
    (pnames_ka : list (string * KW)) cls_processed_props self :
  process_pnames processed_props _method pnames_ka cls_processed_props self
  = (register_all (pnames_calls processed_props _method pnames_ka)
     ≫= λ _, mret (cls_processed_props
                    ∪ names_of
                        (pnames_calls processed_props _method pnames_ka)))
      self.
Proof.
  revert cls_processed_props self.
  induction pnames_ka as [|[pname ka] rest IH];
    intros cls_processed_props self; simpl.
  - unfold mbind, py_bind, bind, mret, py_ret, ret, names_of. simpl.
    by rewrite (right_id_L ∅ (∪)).
  - case_bool_decide; [|apply IH].
    simpl. unfold mbind, py_bind, bind, observe in *.
    destruct (register_notification pname _method ka self)
      as [[[]|e] s1]; [|done].
    rewrite IH. unfold names_of. simpl.
    by rewrite (assoc_L (∪)).
Qed.

Lemma process_meths_calls inst mro processed_props
    (ms : list (string * positive * list (string * KW)))
    cls_processed_props self :
  (∀ name f pnames_ka,
      (name, f, pnames_ka) ∈ ms → is_Some (getattr_self inst mro name)) →
  process_meths inst mro processed_props ms cls_processed_props self
  = (register_all (meths_calls inst mro processed_props ms)
     ≫= λ _, mret (cls_processed_props
                    ∪ names_of (meths_calls inst mro processed_props ms)))
      self.
Proof.
  revert cls_processed_props self.
  induction ms as [|[[name f] pk] rest IH];
    intros cls_processed_props self Hget; simpl.
  - unfold mbind, py_bind, bind, mret, py_ret, ret, names_of. simpl.
    by rewrite (right_id_L ∅ (∪)).
  - destruct (Hget name f pk) as [m Hm]; [left|]. rewrite Hm.
    unfold mbind at 1, py_bind at 1, bind at 1.
    rewrite process_pnames_calls.
    unfold mbind, py_bind, bind, mret, py_ret, ret in *.
    rewrite register_all_app, names_of_app.
    unfold mbind, py_bind, bind.
    destruct (register_all (pnames_calls processed_props m pk) self)
      as [[[]|e] s1]; [|done].
    rewrite IH by (intros n g p Hin; apply (Hget n g p); by right).
    destruct (register_all (meths_calls inst mro processed_props rest) s1)
      as [[[]|e] s2]; [|done].
    by rewrite (assoc_L (∪)).
Qed.

Lemma dict_lookup_is_Some (name : string) (a : attr) cls :
  (name, a) ∈ cls → is_Some (dict_lookup name cls).
Proof.
  induction cls as [|[k b] cls IH]; [by intros ?%elem_of_nil|].
  intros [E|Hin]%elem_of_cons; simpl.
  - injection E as <- <-. rewrite bool_decide_eq_true_2 by done. eauto.
  - case_bool_decide; [eauto | by apply IH].
Qed.

Lemma getattr_self_is_Some inst mro cls (name : string) (a : attr) :
  cls ∈ mro → (name, a) ∈ cls → is_Some (getattr_self inst mro name).
Proof.
  intros Hcls Hin. unfold getattr_self.
  destruct (inst !! name); [eauto|].
  assert (is_Some (mro_lookup mro name)) as [b ->].
  { induction mro as [|cls0 mro IH]; [by apply elem_of_nil in Hcls|].
    simpl. apply elem_of_cons in Hcls as [<-|Hcls].
    - destruct (dict_lookup_is_Some name a cls Hin) as [b ->]. eauto.
    - destruct (dict_lookup name cls0); [eauto | by apply IH]. }
  destruct b as [f o|o]; eauto.
Qed.

Lemma meths_getattr inst mro cls (name : string) (f : positive)
    (pnames_ka : list (string * KW)) :
  cls ∈ mro → (name, f, pnames_ka) ∈ meths cls →
  is_Some (getattr_self inst mro name).
Proof.
  intros Hcls Hin. unfold meths in Hin.
  apply list_elem_of_omap in Hin as ([k a] & Hin & Ha). simpl in Ha.
  destruct a as [g [pk|]|o]; try done. injection Ha as -> -> ->.
  by apply (getattr_self_is_Some inst mro cls name _ Hcls Hin).
Qed.

Lemma process_classes_calls inst mro classes processed_props self :
  (∀ cls, cls ∈ classes → cls ∈ mro) →
  process_classes inst mro classes processed_props self
  = register_all (classes_calls inst mro classes processed_props) self.
Proof.
  revert processed_props self.
  induction classes as [|cls rest IH]; intros processed_props self Hsub;
    simpl; [done|].
  unfold mbind at 1, py_bind at 1, bind at 1.
  rewrite process_meths_calls.
  - rewrite register_all_app.
    unfold mbind, py_bind, bind, mret, py_ret, ret.
    destruct (register_all
                (meths_calls inst mro processed_props (meths cls)) self)
      as [[[]|e] s1]; [|done].
    rewrite (left_id_L ∅ (∪)).
    apply IH. intros c Hc. apply Hsub. by right.
  - intros name f pk Hin. apply (meths_getattr inst mro cls name f pk);
      [|done].
    apply Hsub. left.
Qed.

Lemma init_register_all_eq inst mro :
  init inst mro = register_all (classes_calls inst mro mro ∅) new.
Proof. unfold init. by apply process_classes_calls. Qed.

(** X15.  [Observer.__init__] makes the calls of
    [__register_notification] that the declarations give, class by
    class, the names of the classes before left out, and nothing else:
    the same maps, or the same exception at the same point.  Calling
    [observe] on the new instance for each of them does the same when
    every object that [getattr(self, name)] gave is callable; it
    succeeds only then, since [observe] raises [TypeError] for an object
    that is not callable, which [__init__] registers without a check. *)
Theorem init_as_register_all (callable_obj : positive → bool) inst mro :
  init inst mro = register_all (classes_calls inst mro mro ∅) new
  ∧ (Forall (λ c, is_callable callable_obj c.1.2 = true)
       (classes_calls inst mro mro ∅) →
     observe_all_checked (is_callable callable_obj)
       (classes_calls inst mro mro ∅) new
     = init inst mro)
  ∧ ((observe_all_checked (is_callable callable_obj)
        (classes_calls inst mro mro ∅) new).1 = Ok tt
     ↔ (init inst mro).1 = Ok tt
       ∧ Forall (λ c, is_callable callable_obj c.1.2 = true)
           (classes_calls inst mro mro ∅)).
Proof.
  split; [apply init_register_all_eq|]. split.
  - intros Hall. rewrite init_register_all_eq.
    by apply observe_all_checked_callable.
  - split.
    + intros Hrun.
      pose proof (observe_all_checked_Ok _ _ _ Hrun) as Hall.
      split; [|done].
      rewrite init_register_all_eq.
      by rewrite <- (observe_all_checked_callable _ _ _ Hall).
    + intros [Hrun Hall].
      rewrite (observe_all_checked_callable _ _ _ Hall).
      by rewrite <- init_register_all_eq.
Qed.

(** *** Two decorations of one method *)

Lemma pnames_calls_all (_method : callable) (pnames_ka : list (string * KW)) :
  pnames_calls ∅ _method pnames_ka
  = (λ p, (p.1, _method, p.2)) <$> pnames_ka.
Proof.
  induction pnames_ka as [|[pname ka] rest IH]; simpl; [done|].
  rewrite bool_decide_eq_true_2 by apply not_elem_of_empty.
  by rewrite IH.
Qed.



Lemma init_one_class_calls inst (mname : string) (f : positive)
    (pnames_ka : list (string * KW)) :
  inst !! mname = None →
  classes_calls inst [[(mname, Function f (Some pnames_ka))]]
    [[(mname, Function f (Some pnames_ka))]] ∅
  = (λ p, (p.1, Bound f, p.2)) <$> pnames_ka.
Proof.
  intros Hinst. simpl. unfold getattr_self. rewrite Hinst. simpl.
  rewrite bool_decide_eq_true_2 by done.
  by rewrite !app_nil_r, pnames_calls_all.
Qed.

End DeclaredFacts.

(** * The deprecated decorator *)

Section DecoratorFacts.
Import Observer Registry Decorator.
Variable fnmatch : string → string → bool.

(** X17.  A method decorated with the deprecated [observes] for the names
    [args].  Without a name [observes] raises [TypeError]; when
    [inspect.getargspec] raises, the decoration raises the same.  If the
    decorator cannot classify the method (variable arguments, or a
    number of parameters outside 4, 5, 7, 8) it declares nothing, and
    the instance observes nothing through it.  Otherwise, for distinct
    names without wildcards and a method that no attribute of the
    instance hides, the instantiation succeeds, the method receives
    exactly the properties named, and its keyword arguments are the kind
    for its number of parameters and [old_style_call]. *)
Theorem observes_declares (inst : gmap string positive) (mname : string)
    (f : positive) (args : list string) (spec : argspec) :
  (args = [] → observes args spec None = Raise TypeError)
  ∧ (∀ e, args ≠ [] → spec = Raise e → observes args spec None = Raise e)
  ∧ (∀ mnumargs mvarargs,
        args ≠ [] →
        spec = Ok (mnumargs, mvarargs) →
        mvarargs = true ∨ args_to_type mnumargs = None →
        observes args spec None = Ok None
        ∧ init inst [[(mname, Function (KW:=gmap string pyval) f None)]]
          = (Ok tt, new))
  ∧ (∀ mnumargs type_kw,
        args ≠ [] →
        spec = Ok (mnumargs, false) →
        args_to_type mnumargs = Some type_kw →
        inst !! mname = None →
        NoDup args →
        (∀ arg, arg ∈ args → has_wildcards arg = false) →
        ∃ cust_obs self,
          observes args spec None = Ok (Some cust_obs)
          ∧ init inst [[(mname, Function f (Some cust_obs))]] = (Ok tt, self)
          ∧ (∀ prop_name x,
                x ∈ get_observing_methods fnmatch self prop_name
                ↔ prop_name ∈ args ∧ x = Bound f)
          ∧ (∀ prop_name,
                prop_name ∈ args →
                get_observing_method_kwargs self prop_name (Bound f)
                = Ok (old_style_kwargs type_kw))).
Proof.
  split; [|split; [|split]].
  - intros ->. reflexivity.
  - intros e Hargs ->. unfold observes.
    by rewrite (bool_decide_eq_false_2 _ Hargs).
  - intros mnumargs mvarargs Hargs -> Hign. split; [|reflexivity].
    unfold observes, observes_decorator.
    rewrite (bool_decide_eq_false_2 _ Hargs).
    destruct Hign as [-> | ->]; [done | by destruct mvarargs].
  - intros mnumargs type_kw Hargs -> Htype Hinst Hnd Hplain.
    set (pk := (λ arg, (arg, old_style_kwargs type_kw)) <$> args).
    exists pk.
    assert (observes args (Ok (mnumargs, false)) None = Ok (Some pk)) as Hdec.
    { unfold observes, observes_decorator.
      rewrite (bool_decide_eq_false_2 _ Hargs), Htype. done. }
    rewrite init_register_all_eq, register_all_observe_all,
      (init_one_class_calls inst mname f pk Hinst).
    set (calls := (λ p, (p.1, Bound f, p.2)) <$> pk).
    assert (calls.*1 = (λ arg, (arg, Bound f)) <$> args) as Hpairs.
    { unfold calls, pk. rewrite <- !list_fmap_compose. done. }
    assert (∀ p x, (p, x) ∈ calls.*1 ↔ p ∈ args ∧ x = Bound f) as Hmem.
    { intros p x. rewrite Hpairs, list_elem_of_fmap. split.
      - by intros (arg & [= -> ->] & Hin).
      - intros [Hin ->]. eauto. }
    destruct (observe_all_Ok_iff calls new [] after_new) as [Hiff _].
    destruct (observe_all calls new) as [r self] eqn:Hrun.
    assert (r = Ok tt) as ->.
    { apply Hiff. rewrite app_nil_r. split.
      - rewrite Hpairs. apply NoDup_fmap_2; [|done]. by intros ?? [=].
      - intros n1 n2 x [Hin _]%Hmem _ _. by apply Hplain. }
    exists self. split; [done|]. split; [done|].
    pose proof (observe_all_log calls new self [] after_new Hrun) as Hlog.
    pose proof (after_registrations_maps self _ Hlog) as Hmaps.
    assert (∀ p x, (p, x) ∈ (reverse calls.*1 ++ [])%list
                   ↔ p ∈ args ∧ x = Bound f) as Hmem'.
    { intros p x. rewrite app_nil_r, elem_of_reverse. apply Hmem. }
    split.
    + intros prop_name x. rewrite elem_of_get_observing_methods. split.
      * intros [Hexact|(pat & _ & Hpat)].
        -- apply (Hmaps prop_name x) in Hexact as [Hin _]. by apply Hmem'.
        -- apply (Hmaps pat x) in Hpat as [[Hin _]%Hmem' Hw].
           rewrite (Hplain pat Hin) in Hw. done.
      * intros [Hin ->]. left. apply (Hmaps prop_name (Bound f)).
        split; [by apply Hmem' | by apply Hplain].
    + intros prop_name Hin. unfold get_observing_method_kwargs.
      rewrite (observe_all_kwargs calls new self prop_name (Bound f)
                 (old_style_kwargs type_kw) Hrun); [done|].
      unfold calls, pk. rewrite <- list_fmap_compose.
      apply list_elem_of_fmap. exists prop_name. split; [done | done].
Qed.

End DecoratorFacts.

(** * The further theorems at concrete observers *)

Section MoreWitnesses.
Import Observer Registry.

Lemma kwargs_read_back_witness :
  get_observing_method_kwargs Sample.one_handler "a*" "on_a" = Ok Sample.kw
  ∧ get_observing_method_kwargs Sample.two_handlers "a*" "on_a"
    = Ok Sample.kw.
Proof.
  split.
  - apply (proj1 (kwargs_read_back (new (M:=string))) "a*" "on_a").
    vm_compute. reflexivity.
  - apply (proj2 (kwargs_read_back Sample.one_handler)
             "a*" "on_a" Sample.kw "a*" "on_b" Sample.kw).
    vm_compute. reflexivity.
Defined.

Lemma kwargs_of_pattern_method_witness :
  get_observing_method_kwargs Sample.two_handlers "zzz" "on_b"
  = Ok Sample.kw.
Proof.
  apply (proj1 (kwargs_of_pattern_method Glob.fnmatch Sample.two_handlers
                  "on_b"
                  (after_registrations_reachable _ _ _ two_handlers_log))
           "a*" Sample.kw); vm_compute; reflexivity.
Defined.

Lemma exact_handler_log :
  after_registrations Scenario.exact_handler [("x", "on_x")].
Proof.
  apply (after_ok new [] "x" "on_x" Sample.kw).
  - apply after_new.
  - vm_compute. reflexivity.
Defined.

Lemma pattern_and_exact_log :
  after_registrations Scenario.pattern_and_exact
    [("a1", "on_x"); ("a*", "on_a")].
Proof.
  apply (after_ok Sample.one_handler _ "a1" "on_x" Sample.kw).
  - apply one_handler_log.
  - vm_compute. reflexivity.
Defined.

Lemma is_observing_method_dispatch_witness :
  is_observing_method Glob.fnmatch Sample.two_handlers "a*" "on_a" = true
  ∧ is_observing_method Glob.fnmatch Scenario.exact_handler "x" "on_x"
    = true.
Proof.
  split.
  - apply (proj1 (is_observing_method_dispatch Glob.fnmatch
                    Sample.two_handlers "a*" "on_a"
                    (after_registrations_reachable _ _ _ two_handlers_log))).
    left. vm_compute. reflexivity.
  - apply (proj2 (is_observing_method_dispatch Glob.fnmatch
                    Scenario.exact_handler "x" "on_x"
                    (after_registrations_reachable _ _ _ exact_handler_log))).
    + reflexivity.
    + vm_compute. reflexivity.
Defined.

Lemma remove_exact_registration_witness :
  ∃ self',
    remove_observing_method Glob.fnmatch ["x"] "on_x" Scenario.exact_handler
    = (Ok tt, self')
    ∧ "on_x" ∉ get_observing_methods Glob.fnmatch self' "x".
Proof.
  destruct (remove_exact_registration Glob.fnmatch Scenario.exact_handler
              "x" "on_x"
              (after_registrations_reachable _ _ _ exact_handler_log))
    as (self' & Hrun & Hget & _).
  - vm_compute. reflexivity.
  - exists self'. split; [exact Hrun|].
    intros Hin. apply Hget in Hin as [_ Hne]. by apply Hne.
Defined.


Lemma remove_pattern_registration_witness :
  ∃ self',
    remove_observing_method Glob.fnmatch ["a1"] "on_a" Sample.one_handler
    = (Ok tt, self')
    ∧ "on_a" ∉ get_observing_methods Glob.fnmatch self' "a1".
Proof.
  destruct (remove_pattern_registration Glob.fnmatch Sample.one_handler
              "a1" "on_a" "a*"
              (after_registrations_reachable _ _ _ one_handler_log))
    as (self' & Hrun & Hget & _).
  - reflexivity.
  - vm_compute. reflexivity.
  - vm_compute. reflexivity.
  - vm_compute. eauto.
  - exists self'. split; [exact Hrun|].
    intros Hin. apply Hget in Hin as [_ Hne]. by apply Hne.
Defined.

Lemma remove_by_unmatched_name_witness :
  ∃ self',
    remove_observing_method Glob.fnmatch ["b1"] "on_a" Sample.one_handler
    = (Ok tt, self')
    ∧ get_observing_methods Glob.fnmatch self' "a1"
      = get_observing_methods Glob.fnmatch Sample.one_handler "a1"
    ∧ get_observing_method_kwargs self' "a1" "on_a" = Raise KeyError.
Proof.
  destruct (remove_by_unmatched_name Glob.fnmatch Sample.one_handler
              "b1" "on_a" "a*"
              (after_registrations_reachable _ _ _ one_handler_log))
    as [Hkept _].
  - reflexivity.
  - vm_compute. reflexivity.
  - vm_compute. reflexivity.
  - destruct Hkept as (self' & Hrun & Hget & Hkw & _);
      [vm_compute; eauto|].
    exists self'. split; [exact Hrun|]. split; [apply Hget | apply Hkw].
Defined.

Lemma exact_name_hides_pattern_witness :
  remove_observing_method Glob.fnmatch ["a1"] "on_a"
    Scenario.pattern_and_exact
  = (Raise KeyError, Scenario.pattern_and_exact).
Proof.
  apply (exact_name_hides_pattern Glob.fnmatch Scenario.pattern_and_exact
           "a1" "on_a" "a*" []).
  - apply (after_registrations_reachable _ _ _ pattern_and_exact_log).
  - vm_compute. eauto.
  - vm_compute. reflexivity.
Defined.

Lemma observe_all_any_order_witness :
  observe_all [("a*", "on_b", Sample.kw); ("a*", "on_a", Sample.kw)] new
  = (Ok tt, Sample.two_handlers).
Proof.
  apply (observe_all_any_order
           [("a*", "on_a", Sample.kw); ("a*", "on_b", Sample.kw)]).
  - apply perm_swap.
  - vm_compute. reflexivity.
Defined.



Lemma observes_declares_witness :
  Decorator.observes [] (Ok (5, false)) None = Raise TypeError
  ∧ Decorator.observes ["x"] (Raise AttributeError) None
    = Raise AttributeError
  ∧ ∃ cust_obs self,
      Decorator.observes ["x"; "y"] (Ok (5, false)) None = Ok (Some cust_obs)
      ∧ init ∅ [[("on_x", Function 1 (Some cust_obs))]] = (Ok tt, self)
      ∧ get_observing_method_kwargs self "y" (Bound 1)
        = Ok (Decorator.old_style_kwargs "assign").
Proof.
  split; [|split].
  - apply (proj1 (observes_declares Glob.fnmatch ∅ "on_x" 1 []
                    (Ok (5, false)))).
    reflexivity.
  - apply (proj1 (proj2 (observes_declares Glob.fnmatch ∅ "on_x" 1 ["x"]
                           (Raise AttributeError)))).
    + discriminate.
    + reflexivity.
  - destruct (proj2 (proj2 (proj2
                (observes_declares Glob.fnmatch ∅ "on_x" 1 ["x"; "y"]
                   (Ok (5, false))))) 5 "assign")
      as (cust_obs & self & Hdec & Hinit & _ & Hkw).
    + discriminate.
    + reflexivity.
    + reflexivity.
    + apply lookup_empty.
    + apply NoDup_cons. split.
      * intros Hin. apply list_elem_of_singleton in Hin. discriminate.
      * apply NoDup_singleton.
    + intros arg Hin.
      apply elem_of_cons in Hin as [->|Hin]; [reflexivity|].
      apply list_elem_of_singleton in Hin as ->. reflexivity.
    + exists cust_obs, self. split; [exact Hdec|]. split; [exact Hinit|].
      apply Hkw. apply elem_of_cons. right. left.
Defined.

Lemma init_as_register_all_witness :
  (init ∅ [Sample.Top; Sample.Derived; Sample.Base]).1 = Ok tt
  ∧ (observe_all_checked (is_callable Sample.callable_obj)
       (classes_calls ∅ [Sample.Top; Sample.Derived; Sample.Base]
          [Sample.Top; Sample.Derived; Sample.Base] ∅) new).1
    ≠ Ok tt.
Proof.
  split; [vm_compute; reflexivity|].
  intros Hrun.
  apply (init_as_register_all Sample.callable_obj ∅
           [Sample.Top; Sample.Derived; Sample.Base]) in Hrun as [_ Hall].
  vm_compute in Hall.
  apply Forall_cons in Hall as [Hc _]. discriminate.
Defined.

End MoreWitnesses.
